(** * Identity and credential subsystem of the user-account service

    A shallow embedding of the TypeScript sources

      - models/user.ts            (entity [User], hooks [hashPassword] and
                                   [comparePassword], the verification and
                                   reset codes),
      - middlewares/auth.ts       ([isAuthenticated], [requireVerifiedEmail]),
      - config/passport.ts        (the Google strategy's verify callback),
      - controllers/user.ts       ([updateUserRole], [getUserProfile],
                                   [updateUserProfile], the gender labels),
      - app.ts                    (the error-handling middleware),

    followed by the properties the specification states about them.

    Conventions.  A JavaScript string is a [string]; an optional or nullable
    field is an [option]; a [Date] is its number of milliseconds ([Z]).  The
    repository (TypeORM) is a list of rows together with the trace of the
    calls it received, passed explicitly; [console.warn] appends to a log.
    Libraries that are not part of the sources (bcrypt, jsonwebtoken) are
    parameters: a record of their operations, and the part of their contract
    a property relies on as an explicit hypothesis. *)

From Stdlib Require Import String Ascii List Bool ZArith Lia.
From Stdlib Require Import DecimalString.
Import ListNotations.
Open Scope string_scope.

(* ===================================================================== *)
(** ** JavaScript primitives used by the sources *)
(* ===================================================================== *)

Module Js.

(** Truthiness of a string value that may be [undefined]/[null]:
    [!s] is [negb (truthy s)]. *)
Definition truthy (s : option string) : bool :=
  match s with
  | Some s' => negb (String.eqb s' "")
  | None => false
  end.

(** [s.startsWith(p)]. *)
Definition startsWith (p s : string) : bool := String.prefix p s.

(** [s.split(sep)] for a one-character separator: the pieces between the
    occurrences of [sep]; never the empty array. *)
Fixpoint split (sep : ascii) (s : string) : list string :=
  match s with
  | EmptyString => [EmptyString]
  | String c s' =>
      if Ascii.eqb c sep then EmptyString :: split sep s'
      else match split sep s' with
           | piece :: pieces => String c piece :: pieces
           | [] => [String c EmptyString]
           end
  end.

(** [a[i]]: [undefined] out of range. *)
Definition index {A : Type} (a : list A) (i : nat) : option A := nth_error a i.

(** [x || d] for an optional string. *)
Definition or_else (x : option string) (d : string) : string :=
  if truthy x then match x with Some s => s | None => d end else d.

End Js.

(* ===================================================================== *)
(** ** models/user.ts: the entity *)
(* ===================================================================== *)

(** [enum UserRole], with the string each member stands for. *)
Inductive UserRole : Type := USER | ADMIN.

Definition UserRole_value (r : UserRole) : string :=
  match r with
  | USER => "user"
  | ADMIN => "admin"
  end.

(** [Object.values(UserRole)]. *)
Definition UserRole_values : list string :=
  [UserRole_value USER; UserRole_value ADMIN].

(** The member a role string denotes: [Some] exactly on the strings that
    [Object.values(UserRole).includes] accepts, and then the value of
    [role as UserRole]. *)
Definition UserRole_of_string (s : string) : option UserRole :=
  if String.eqb s "user" then Some USER
  else if String.eqb s "admin" then Some ADMIN
  else None.

(** [interface OAuthProvider]. *)
Record OAuthProvider : Type := mkOAuthProvider {
  provider : string;
  providerId : string;
  accessToken : string;
  refreshToken : option string;
  tokenExpiresAt : Z
}.

(** [class User]: the columns the identity core reads or writes.  The
    creation and update stamps are assigned by the persistence layer on a
    write and are represented by the repository's trace. *)
Record User : Type := mkUser {
  userId : string;
  email : string;
  password : option string;
  name : string;
  role : UserRole;
  avatar : option string;
  isEmailVerified : option bool;
  oauthProviders : option (list OAuthProvider)
}.

Definition set_password (u : User) (p : option string) : User :=
  mkUser (userId u) (email u) p (name u) (role u) (avatar u)
         (isEmailVerified u) (oauthProviders u).

Definition set_role (u : User) (r : UserRole) : User :=
  mkUser (userId u) (email u) (password u) (name u) r (avatar u)
         (isEmailVerified u) (oauthProviders u).

Definition set_avatar (u : User) (a : option string) : User :=
  mkUser (userId u) (email u) (password u) (name u) (role u) a
         (isEmailVerified u) (oauthProviders u).

Definition set_isEmailVerified (u : User) (b : option bool) : User :=
  mkUser (userId u) (email u) (password u) (name u) (role u) (avatar u)
         b (oauthProviders u).

Definition set_oauthProviders (u : User) (l : option (list OAuthProvider)) : User :=
  mkUser (userId u) (email u) (password u) (name u) (role u) (avatar u)
         (isEmailVerified u) l.

(* ===================================================================== *)
(** ** bcrypt, as the entity uses it *)
(* ===================================================================== *)

(** The two entry points of the bcrypt package the entity calls.
    [hash data rounds salt] is [bcrypt.hash(data, rounds)] for the salt the
    library drew; [compare data encrypted] is [bcrypt.compare]. *)
Record Bcrypt : Type := mkBcrypt {
  hash : string -> nat -> string -> string;
  compare : string -> string -> bool
}.

(** What the properties below assume of the library: a value verifies
    against its own hash, and a hash is printed in the modular crypt format
    of bcrypt, version [2a] or [2b]. *)
Record BcryptContract (B : Bcrypt) : Prop := mkBcryptContract {
  compare_hash :
    forall data rounds salt, compare B data (hash B data rounds salt) = true;
  hash_format :
    forall data rounds salt,
      String.prefix "$2a$" (hash B data rounds salt) = true \/
      String.prefix "$2b$" (hash B data rounds salt) = true
}.

(** The regular expression [/^\$2[aby]\$/] of [hashPassword], as [.test]. *)
Definition bcrypt_prefix_test (s : string) : bool :=
  match s with
  | String c0 (String c1 (String c2 (String c3 _))) =>
      Ascii.eqb c0 "$" && Ascii.eqb c1 "2"
      && (Ascii.eqb c2 "a" || Ascii.eqb c2 "b" || Ascii.eqb c2 "y")
      && Ascii.eqb c3 "$"
  | _ => false
  end.

(** [User.hashPassword], the [@BeforeInsert] / [@BeforeUpdate] hook, with
    the work factor 12 of the source. *)
Definition hashPassword (B : Bcrypt) (salt : string) (u : User) : User :=
  match password u with
  | Some p =>
      if Js.truthy (Some p) && negb (bcrypt_prefix_test p)
      then set_password u (Some (hash B p 12 salt))
      else u
  | None => u
  end.

(** [User.comparePassword]. *)
Definition comparePassword (B : Bcrypt) (u : User) (candidatePassword : string) : bool :=
  match password u with
  | Some p =>
      if negb (Js.truthy (Some p)) then false
      else compare B candidatePassword p
  | None => false
  end.

(** Storing a password: the caller assigns the field and persists the
    entity, which runs the hook. *)
Definition setPassword (B : Bcrypt) (salt : string) (u : User) (plaintext : string) : User :=
  hashPassword B salt (set_password u (Some plaintext)).

(** A stand-in for the library that meets [BcryptContract]; it instantiates
    the theorems that assume the contract. *)
Definition tag_bcrypt : Bcrypt :=
  mkBcrypt (fun data _ _ => "$2b$" ++ data)
           (fun data encrypted => String.eqb encrypted ("$2b$" ++ data)).

(* ===================================================================== *)
(** ** utils/index.ts and types/api.ts: errors *)
(* ===================================================================== *)

(** [enum ErrorCode]: the two members the sources name. *)
Inductive ErrorCode : Type := AUTH_TOKEN_INVALID | DATA_INVALID.

(** An [ApiError], by the factory call that built it. *)
Inductive ApiError : Type :=
| ApiError_unauthorized
| ApiError_notFound (what : string)
| ApiError_emailNotVerified
| ApiError_systemError
| ApiError_create (status : nat) (message : string) (code : ErrorCode).

(** The error kinds of the specification. *)
Inductive ErrorKind : Type :=
| Unauthorized | AuthTokenInvalid | EmailNotVerified | NotFound
| DataInvalid | SystemError.

(** Modelled from the spec: the factories of [ApiError] (utils/index.ts) and
    the members of [ErrorCode] (types/api.ts) are not among the sources; each
    factory yields the error kind of its name, and an error built with
    [ApiError.create] has the kind of its code. *)
Definition kind_of (e : ApiError) : ErrorKind :=
  match e with
  | ApiError_unauthorized => Unauthorized
  | ApiError_notFound _ => NotFound
  | ApiError_emailNotVerified => EmailNotVerified
  | ApiError_systemError => SystemError
  | ApiError_create _ _ AUTH_TOKEN_INVALID => AuthTokenInvalid
  | ApiError_create _ _ DATA_INVALID => DataInvalid
  end.

(* ===================================================================== *)
(** ** The repository ([AppDataSource.getRepository(User)]) *)
(* ===================================================================== *)

(** The calls a repository receives. *)
Inductive DbOp : Type :=
| FindOneByEmail (e : string)
| FindOneByUserId (id : string)
| Save (id : string).

Definition is_write (op : DbOp) : bool :=
  match op with
  | Save _ => true
  | _ => false
  end.

(** The world a handler runs in: the table, the calls made so far (oldest
    first) and the lines written with [console.warn]. *)
Record World : Type := mkWorld {
  rows : list User;
  trace : list DbOp;
  console : list string
}.

Definition log_op (op : DbOp) (w : World) : World :=
  mkWorld (rows w) (trace w ++ [op]) (console w).

Definition warn (line : string) (w : World) : World :=
  mkWorld (rows w) (trace w) (console w ++ [line]).

Definition lookup_email (e : string) (l : list User) : option User :=
  find (fun u => String.eqb (email u) e) l.

Definition lookup_userId (id : string) (l : list User) : option User :=
  find (fun u => String.eqb (userId u) id) l.

(** [findOne({ where: { email } })]. *)
Definition findOneByEmail (e : string) (w : World) : World * option User :=
  (log_op (FindOneByEmail e) w, lookup_email e (rows w)).

(** [findOne({ where: { userId } })]. *)
Definition findOneByUserId (id : string) (w : World) : World * option User :=
  (log_op (FindOneByUserId id) w, lookup_userId id (rows w)).

Definition replace_row (u : User) (l : list User) : list User :=
  map (fun r => if String.eqb (userId r) (userId u) then u else r) l.

(** Upsert on the primary key. *)
Definition upsert (u : User) (l : list User) : list User :=
  if existsb (fun r => String.eqb (userId r) (userId u)) l
  then replace_row u l
  else l ++ [u].

(** [save(user)]. *)
Definition save (u : User) (w : World) : World :=
  log_op (Save (userId u)) (mkWorld (upsert u (rows w)) (trace w) (console w)).

(* ===================================================================== *)
(** ** middlewares/auth.ts *)
(* ===================================================================== *)

(** [TokenPayload]: the claim the middleware reads. *)
Record TokenPayload : Type := mkTokenPayload {
  tp_userId : option string
}.

(** What [jwt.verify] throws.  [TokenExpiredError] and [NotBeforeError]
    are subclasses of [JsonWebTokenError].  The library also lets through
    exceptions of the code it calls, such as the [SyntaxError] of
    [JSON.parse] on a payload that is not JSON; [OtherException], with the
    name of the exception, stands for every exception that is no
    [JsonWebTokenError]. *)
Inductive JwtError : Type :=
| JsonWebTokenError (message : string)
| TokenExpiredError
| NotBeforeError
| OtherException (name : string).

(** [error instanceof jwt.JsonWebTokenError]. *)
Definition instanceof_JsonWebTokenError (e : JwtError) : bool :=
  match e with
  | JsonWebTokenError _ | TokenExpiredError | NotBeforeError => true
  | OtherException _ => false
  end.

Inductive JwtOutcome : Type :=
| JwtThrows (e : JwtError)
| JwtReturns (decoded : TokenPayload).

(** [jsonwebtoken] at a given instant: [verify token secret]. *)
Record Jwt : Type := mkJwt {
  verify : string -> string -> JwtOutcome
}.

(** [process.env.JWT_SECRET || 'your_jwt_secret']. *)
Definition jwt_secret (env_JWT_SECRET : option string) : string :=
  Js.or_else env_JWT_SECRET "your_jwt_secret".

(** [req.user] as [isAuthenticated] sets it. *)
Record ReqUser : Type := mkReqUser {
  ru_userId : string;
  ru_role : UserRole;
  ru_email : string;
  ru_name : string;
  ru_isEmailVerified : option bool
}.

(** What the body of the [try] block throws. *)
Inductive Thrown : Type :=
| ThrownApi (e : ApiError)
| ThrownJwt (e : JwtError).

(** What a middleware hands to [next]: nothing (the request goes on, here
    with the identity bound to it) or an error. *)
Inductive Next : Type :=
| NextOk (user : ReqUser)
| NextError (error : Thrown).

(** The error kind a failed request surfaces with. *)
Definition next_kind (n : Next) : option ErrorKind :=
  match n with
  | NextError (ThrownApi e) => Some (kind_of e)
  | NextError (ThrownJwt _) => None
  | NextOk _ => None
  end.

(** The [catch] block of [isAuthenticated]. *)
Definition isAuthenticated_catch (error : Thrown) : Next :=
  match error with
  | ThrownJwt e =>
      if instanceof_JsonWebTokenError e
      then NextError (ThrownApi (ApiError_create 401 "無效的認證令牌" AUTH_TOKEN_INVALID))
      else NextError error
  | ThrownApi _ => NextError error
  end.

(** The [try] block of [isAuthenticated]. *)
Definition isAuthenticated_try (J : Jwt) (env_JWT_SECRET : option string)
    (authorization : option string) (w : World) : World * (Thrown + ReqUser) :=
  match authorization with
  | None => (w, inl (ThrownApi ApiError_unauthorized))
  | Some authHeader =>
      if negb (Js.truthy (Some authHeader)) || negb (Js.startsWith "Bearer " authHeader)
      then (w, inl (ThrownApi ApiError_unauthorized))
      else
        let token := Js.index (Js.split " " authHeader) 1 in
        if negb (Js.truthy token) then (w, inl (ThrownApi ApiError_unauthorized))
        else
          match token with
          | None => (w, inl (ThrownApi ApiError_unauthorized))
          | Some tok =>
              match verify J tok (jwt_secret env_JWT_SECRET) with
              | JwtThrows e => (w, inl (ThrownJwt e))
              | JwtReturns decoded =>
                  if negb (Js.truthy (tp_userId decoded))
                  then (w, inl (ThrownApi
                          (ApiError_create 401 "無效的認證令牌" AUTH_TOKEN_INVALID)))
                  else
                    match tp_userId decoded with
                    | None => (w, inl (ThrownApi
                          (ApiError_create 401 "無效的認證令牌" AUTH_TOKEN_INVALID)))
                    | Some id =>
                        let (w1, found) := findOneByUserId id w in
                        match found with
                        | None => (w1, inl (ThrownApi (ApiError_notFound "用戶")))
                        | Some user =>
                            (w1, inr (mkReqUser (userId user) (role user) (email user)
                                                (name user) (isEmailVerified user)))
                        end
                    end
              end
          end
  end.

(** [isAuthenticated]. *)
Definition isAuthenticated (J : Jwt) (env_JWT_SECRET : option string)
    (authorization : option string) (w : World) : World * Next :=
  match isAuthenticated_try J env_JWT_SECRET authorization w with
  | (w', inl error) => (w', isAuthenticated_catch error)
  | (w', inr user) => (w', NextOk user)
  end.

(** [requireVerifiedEmail]: [None] is the call [next()]. *)
Definition requireVerifiedEmail (user : option ReqUser) : option ApiError :=
  match user with
  | Some u =>
      match ru_isEmailVerified u with
      | Some true => None
      | _ => Some ApiError_emailNotVerified
      end
  | None => Some ApiError_emailNotVerified
  end.

(* ===================================================================== *)
(** ** config/passport.ts: the Google strategy's verify callback *)
(* ===================================================================== *)

(** The fields of the passport [Profile] the callback reads:
    [emails] and [photos] hold the [value] of each entry. *)
Record Profile : Type := mkProfile {
  id : string;
  displayName : option string;
  emails : option (list string);
  photos : option (list string)
}.

(** [profile.emails?.[0]?.value] and [profile.photos?.[0]?.value]. *)
Definition first_value (entries : option (list string)) : option string :=
  match entries with
  | Some l => Js.index l 0
  | None => None
  end.

(** What the callback reads besides its arguments: the clock, and the
    identifier the table generates for an inserted row. *)
Record Env : Type := mkEnv {
  now : Z;
  uuid : string
}.

(** [interface GoogleUser], the [user] object handed to [done]. *)
Record GoogleUser : Type := mkGoogleUser {
  gu_userId : string;
  gu_email : string;
  gu_name : string;
  gu_avatar : option string;
  gu_role : UserRole;
  gu_oauthProviders : list OAuthProvider;
  gu_isEmailVerified : bool
}.

(** The call of [done]. *)
Inductive Done : Type :=
| DoneError (message : string)
| DoneUser (userData : GoogleUser).

(** [new Date(Date.now() + 3600000)]. *)
Definition expiry (E : Env) : Z := (now E + 3600000)%Z.

Definition is_google (p : OAuthProvider) : bool := String.eqb (provider p) "google".

(** [user.oauthProviders || []]. *)
Definition providers_or_empty (u : User) : list OAuthProvider :=
  match oauthProviders u with
  | Some l => l
  | None => []
  end.

(** [user.oauthProviders?.find(p => p.provider === 'google')]. *)
Definition existingProvider (u : User) : option OAuthProvider :=
  match oauthProviders u with
  | Some l => find is_google l
  | None => None
  end.

(** The assignments to [existingProvider]: the object [find] returned is an
    element of the user's array, so they change that element in place, which
    is the first one [is_google] accepts. *)
Fixpoint assign_first (f : OAuthProvider -> OAuthProvider) (l : list OAuthProvider)
  : list OAuthProvider :=
  match l with
  | [] => []
  | p :: l' => if is_google p then f p :: l' else p :: assign_first f l'
  end.

(** The body of the [if (existingProvider)] branch, on the link itself: the
    stored id is overwritten when it differs, the token material always. *)
Definition refresh_link (googleId accessToken' : string) (refreshToken' : option string)
    (expires : Z) (p : OAuthProvider) : OAuthProvider :=
  let p1 :=
    if negb (String.eqb (providerId p) googleId)
    then mkOAuthProvider (provider p) googleId (accessToken p) (refreshToken p)
                         (tokenExpiresAt p)
    else p in
  mkOAuthProvider (provider p1) (providerId p1) accessToken' refreshToken' expires.

(** [if (avatarUrl && !user.avatar) user.avatar = avatarUrl]. *)
Definition fill_avatar (avatarUrl : option string) (u : User) : User :=
  if Js.truthy avatarUrl && negb (Js.truthy (avatar u))
  then set_avatar u avatarUrl
  else u.

(** The line written when the stored id differs from the asserted one. *)
Definition mismatch_warning (email' stored googleId : string) : string :=
  "Mismatched Google ID for email " ++ email' ++ ". DB: " ++ stored
    ++ ", Google: " ++ googleId.

(** The projection built after the three branches. *)
Definition userData (u : User) : GoogleUser :=
  mkGoogleUser (userId u) (email u) (name u) (avatar u) (role u)
               (providers_or_empty u)
               (match isEmailVerified u with Some b => b | None => false end).

(** [profile.displayName || email.split('@')[0]]. *)
Definition default_name (profile : Profile) (email' : string) : string :=
  Js.or_else (displayName profile)
             (match Js.index (Js.split "@" email') 0 with
              | Some s => s
              | None => EmptyString
              end).

(** The link built from the incoming assertion and token material. *)
Definition google_link (E : Env) (googleId accessToken' : string)
    (refreshToken' : option string) : OAuthProvider :=
  mkOAuthProvider "google" googleId accessToken' refreshToken' (expiry E).

(** The user after the branch [if (existingProvider)]: the found link is
    refreshed in place and a missing avatar is filled. *)
Definition relogin_user (E : Env) (googleId accessToken' : string)
    (refreshToken' : option string) (avatarUrl : option string) (user : User) : User :=
  fill_avatar avatarUrl
    (set_oauthProviders user
       (Some (assign_first (refresh_link googleId accessToken' refreshToken' (expiry E))
                           (providers_or_empty user)))).

(** The user after the branch that links Google to an existing account: the
    link is pushed, a missing avatar is filled, the email counts as
    verified. *)
Definition linked_user (E : Env) (googleId accessToken' : string)
    (refreshToken' : option string) (avatarUrl : option string) (user : User) : User :=
  set_isEmailVerified
    (fill_avatar avatarUrl
       (set_oauthProviders user
          (Some (providers_or_empty user
                 ++ [google_link E googleId accessToken' refreshToken'])%list)))
    (Some true).

(** The user created when the email is unknown, with the identifier the
    table gives the new row. *)
Definition created_user (E : Env) (googleId accessToken' : string)
    (refreshToken' : option string) (avatarUrl : option string)
    (profile : Profile) (email' : string) : User :=
  mkUser (uuid E) email' None (default_name profile email') USER avatarUrl (Some true)
         (Some [google_link E googleId accessToken' refreshToken']).

(** The verify callback: the user the Google profile resolves to.  The
    repository of this embedding does not fail, so the [catch] block of the
    callback, which hands an exception of [findOne] or [save] to [done], has
    no counterpart here. *)
Definition googleVerify (E : Env) (accessToken' : string) (refreshToken' : option string)
    (profile : Profile) (w : World) : World * Done :=
  if negb (Js.truthy (Some (id profile)))
  then (w, DoneError "Google profile ID not found")
  else if negb (Js.truthy (first_value (emails profile)))
  then (w, DoneError "Google profile email not found")
  else
    match first_value (emails profile) with
    | None => (w, DoneError "Google profile email not found")
    | Some email' =>
        let googleId := id profile in
        let avatarUrl := first_value (photos profile) in
        let (w1, found) := findOneByEmail email' w in
        match found with
        | Some user =>
            match existingProvider user with
            | Some existing =>
                let w2 :=
                  if negb (String.eqb (providerId existing) googleId)
                  then warn (mismatch_warning email' (providerId existing) googleId) w1
                  else w1 in
                let user' :=
                  relogin_user E googleId accessToken' refreshToken' avatarUrl user in
                (save user' w2, DoneUser (userData user'))
            | None =>
                let user' :=
                  linked_user E googleId accessToken' refreshToken' avatarUrl user in
                (save user' w1, DoneUser (userData user'))
            end
        | None =>
            let newUser :=
              created_user E googleId accessToken' refreshToken' avatarUrl profile email' in
            (save newUser w1, DoneUser (userData newUser))
        end
    end.

(* ===================================================================== *)
(** ** controllers/user.ts: [updateUserRole] *)
(* ===================================================================== *)

(** [req.user] as the controller reads it. *)
Record AuthenticatedUser : Type := mkAuthenticatedUser {
  au_userId : string;
  au_role : string;
  au_email : string
}.

(** The request of [PATCH /users/:id/role]. *)
Record RoleRequest : Type := mkRoleRequest {
  req_user : option AuthenticatedUser;
  params_id : string;
  body_role : option string
}.

(** The [data] member of the response. *)
Record RoleData : Type := mkRoleData {
  rd_userId : string;
  rd_role : UserRole
}.

(** How the handler ends: an error thrown to [handleErrorAsync], or a JSON
    response. *)
Inductive Outcome : Type :=
| Throw (e : ApiError)
| Json (status : nat) (message : string) (data : RoleData).

Definition role_unchanged_message : string := "使用者角色未變更".
Definition role_updated_message : string := "使用者角色更新成功".

(** [updateUserRole]. *)
Definition updateUserRole (req : RoleRequest) (w : World) : World * Outcome :=
  match req_user req with
  | None => (w, Throw ApiError_unauthorized)
  | Some authenticatedUser =>
      let targetUserId := params_id req in
      if negb (Js.truthy (body_role req))
      then (w, Throw (ApiError_create 400 "role 欄位為必填" DATA_INVALID))
      else
        match body_role req with
        | None => (w, Throw (ApiError_create 400 "role 欄位為必填" DATA_INVALID))
        | Some role' =>
            match UserRole_of_string role' with
            | None => (w, Throw (ApiError_create 400 "無效的角色" DATA_INVALID))
            | Some asUserRole =>
                if String.eqb (au_userId authenticatedUser) targetUserId
                   && String.eqb role' (UserRole_value USER)
                then (w, Throw (ApiError_create 400 "禁止將自己的角色降為 user"
                                                DATA_INVALID))
                else
                  let (w1, found) := findOneByUserId targetUserId w in
                  match found with
                  | None => (w1, Throw (ApiError_notFound "用戶"))
                  | Some user =>
                      if String.eqb (UserRole_value (role user)) role'
                      then (w1, Json 200 role_unchanged_message
                                     (mkRoleData (userId user) (role user)))
                      else
                        let user' := set_role user asUserRole in
                        (save user' w1,
                         Json 200 role_updated_message
                              (mkRoleData (userId user') (role user')))
                  end
            end
        end
  end.

(* ===================================================================== *)
(** ** controllers/user.ts: gender labels *)
(* ===================================================================== *)

(** A value that may be [null] or [undefined]. *)
Inductive Nullable (A : Type) : Type :=
| JsNull
| JsUndefined
| JsValue (a : A).

Arguments JsNull {A}.
Arguments JsUndefined {A}.
Arguments JsValue {A} a.

(** [enum Gender], with the string each member stands for. *)
Inductive Gender : Type := MALE | FEMALE | OTHER.

Definition Gender_value (g : Gender) : string :=
  match g with
  | MALE => "male"
  | FEMALE => "female"
  | OTHER => "other"
  end.

(** [Object.values(Gender)]. *)
Definition Gender_values : list string :=
  [Gender_value MALE; Gender_value FEMALE; Gender_value OTHER].

(** The member a string denotes: [Some] exactly on the strings that
    [Object.values(Gender).includes] accepts. *)
Definition Gender_of_string (s : string) : option Gender :=
  if String.eqb s "male" then Some MALE
  else if String.eqb s "female" then Some FEMALE
  else if String.eqb s "other" then Some OTHER
  else None.

(** [genderToChineseMap]. *)
Definition genderToChineseMap (g : Gender) : string :=
  match g with
  | MALE => "男"
  | FEMALE => "女"
  | OTHER => "其他"
  end.

(** The own properties of the object literal [chineseToGenderMap]. *)
Definition chineseToGenderMap_own (key : string) : option Gender :=
  if String.eqb key "男" then Some MALE
  else if String.eqb key "女" then Some FEMALE
  else if String.eqb key "其他" then Some OTHER
  else None.

(** The property names an object literal inherits from
    [Object.prototype]; each holds a function or an object, a truthy value
    that is no member of [Gender]. *)
Definition Object_prototype_names : list string :=
  ["constructor"; "__defineGetter__"; "__defineSetter__"; "hasOwnProperty";
   "__lookupGetter__"; "__lookupSetter__"; "isPrototypeOf";
   "propertyIsEnumerable"; "toString"; "valueOf"; "__proto__"; "toLocaleString"].

(** What reading a key of [chineseToGenderMap] gives: an own entry, a
    member inherited from the prototype, or [undefined]. *)
Inductive MapEntry : Type :=
| OwnEntry (g : Gender)
| InheritedMember (name : string)
| NoEntry.

(** [chineseToGenderMap[key]]: own properties first, then the prototype. *)
Definition chineseToGenderMap (key : string) : MapEntry :=
  match chineseToGenderMap_own key with
  | Some g => OwnEntry g
  | None =>
      if existsb (String.eqb key) Object_prototype_names
      then InheritedMember key
      else NoEntry
  end.

(** [toChineseGender]. *)
Definition toChineseGender (genderValue : Nullable Gender) : Nullable string :=
  match genderValue with
  | JsNull => JsNull
  | JsUndefined => JsUndefined
  | JsValue g =>
      if Js.truthy (Some (genderToChineseMap g))
      then JsValue (genderToChineseMap g)
      else JsUndefined
  end.

(** What [toEnglishGender] returns for a string it does not reject: a
    member of [Gender], or the inherited member the lookup found. *)
Inductive Translated : Type :=
| IsGender (g : Gender)
| IsInherited (name : string).

(** [toEnglishGender]. *)
Definition toEnglishGender (chineseGender : Nullable string) : Nullable Translated :=
  match chineseGender with
  | JsNull => JsNull
  | JsUndefined => JsUndefined
  | JsValue s =>
      match Gender_of_string s with
      | Some g => JsValue (IsGender g)
      | None =>
          match chineseToGenderMap s with
          | OwnEntry g => JsValue (IsGender g)
          | InheritedMember name' => JsValue (IsInherited name')
          | NoEntry => JsUndefined
          end
      end
  end.

(* ===================================================================== *)
(** ** controllers/user.ts: [getUserProfile] and [updateUserProfile] *)
(* ===================================================================== *)

(** The columns both handlers select, and the [user] member of their
    response, which spreads the selected entity. *)
Record UserProfileData : Type := mkUserProfileData {
  pd_userId : string;
  pd_email : string;
  pd_name : string;
  pd_role : UserRole;
  pd_avatar : option string;
  pd_isEmailVerified : option bool;
  pd_oauthProviders : option (list OAuthProvider)
}.

Definition select_profile (u : User) : UserProfileData :=
  mkUserProfileData (userId u) (email u) (name u) (role u) (avatar u)
                    (isEmailVerified u) (oauthProviders u).

(** [findOne({ where: { userId }, select: [...] })]. *)
Definition findOneSelected (id : string) (w : World) : World * option UserProfileData :=
  (log_op (FindOneByUserId id) w, option_map select_profile (lookup_userId id (rows w))).

(** How a profile handler ends. *)
Inductive ProfileOutcome : Type :=
| ProfileThrow (e : ApiError)
| ProfileJson (status : nat) (message : string) (user : UserProfileData).

(** [getUserProfile]. *)
Definition getUserProfile (authenticatedUser : option AuthenticatedUser) (w : World)
  : World * ProfileOutcome :=
  match authenticatedUser with
  | None => (w, ProfileThrow ApiError_unauthorized)
  | Some au =>
      let (w1, selectedUser) := findOneSelected (au_userId au) w in
      match selectedUser with
      | None => (w1, ProfileThrow (ApiError_notFound "用戶資料"))
      | Some selected => (w1, ProfileJson 200 "獲取用戶資料成功" selected)
      end
  end.

(** The two library operations the validation of [updateUserProfile]
    relies on: [s.trim()], and whether [new Date(s).getTime()] is a number
    for a string [s]. *)
Record Runtime : Type := mkRuntime {
  trim : string -> string;
  date_parses : string -> bool
}.

(** The [birthday] member of the body: absent, [null], a string, or a
    [Date] with its time ([None] for an invalid date). *)
Inductive BirthdayInput : Type :=
| BirthdayUndefined
| BirthdayNull
| BirthdayString (s : string)
| BirthdayDate (time : option Z).

(** The [gender] member of the body: absent, [null], a string, or a value
    of another type. *)
Inductive GenderInput : Type :=
| GenderUndefined
| GenderNull
| GenderString (s : string)
| GenderOther.

(** [UpdateProfileRequest] with [req.user]. *)
Record ProfileRequest : Type := mkProfileRequest {
  pr_user : option AuthenticatedUser;
  pr_name : option string;
  pr_nickname : option string;
  pr_phone : option string;
  pr_birthday : BirthdayInput;
  pr_gender : GenderInput;
  pr_address : option string;
  pr_country : option string;
  pr_preferredRegions : option (list string);
  pr_preferredEventTypes : option (list string)
}.

Definition set_name (u : User) (n : string) : User :=
  mkUser (userId u) (email u) (password u) n (role u) (avatar u)
         (isEmailVerified u) (oauthProviders u).

(** The double quote, for the messages that contain one. *)
Definition dq : string := String (ascii_of_nat 34) EmptyString.

Definition birthday_empty_message : string :=
  "生日欄位格式錯誤：如需清空生日，請傳遞 null；否則請提供有效的日期字串。".

Definition birthday_invalid_message : string :=
  "生日欄位格式錯誤：請提供有效的日期字串 (例如 " ++ dq ++ "YYYY-MM-DD" ++ dq ++ ")。".

Definition gender_labels : string :=
  dq ++ "男" ++ dq ++ ", " ++ dq ++ "女" ++ dq ++ ", " ++ dq ++ "其他" ++ dq ++ "。".

Definition gender_empty_message : string :=
  "性別欄位不能為空字串。如需清除，請傳遞 null。有效值為 " ++ gender_labels.

Definition gender_invalid_message (rawGender : string) : string :=
  "性別欄位包含無效的值: " ++ dq ++ rawGender ++ dq ++ "。有效值為 " ++ gender_labels.

Definition gender_type_message : string := "性別欄位格式不正確。".

(** The [if (birthday !== undefined)] block: the error it throws, if any. *)
Definition check_birthday (R : Runtime) (birthday : BirthdayInput) : option ApiError :=
  match birthday with
  | BirthdayUndefined => None
  | BirthdayNull => None
  | BirthdayString s =>
      if String.eqb (trim R s) EmptyString
      then Some (ApiError_create 400 birthday_empty_message DATA_INVALID)
      else if negb (date_parses R s)
      then Some (ApiError_create 400 birthday_invalid_message DATA_INVALID)
      else None
  | BirthdayDate time =>
      match time with
      | None => Some (ApiError_create 400 birthday_invalid_message DATA_INVALID)
      | Some _ => None
      end
  end.

(** The [if (rawGender !== undefined)] block: the error it throws, if any. *)
Definition check_gender (R : Runtime) (rawGender : GenderInput) : option ApiError :=
  match rawGender with
  | GenderUndefined => None
  | GenderNull => None
  | GenderString s =>
      if String.eqb (trim R s) EmptyString
      then Some (ApiError_create 400 gender_empty_message DATA_INVALID)
      else
        match toEnglishGender (JsValue s) with
        | JsUndefined => Some (ApiError_create 400 (gender_invalid_message s) DATA_INVALID)
        | _ => None
        end
  | GenderOther => Some (ApiError_create 400 gender_type_message DATA_INVALID)
  end.

(** [updateUserProfile]. *)
Definition updateUserProfile (R : Runtime) (req : ProfileRequest) (w : World)
  : World * ProfileOutcome :=
  match pr_user req with
  | None => (w, ProfileThrow ApiError_unauthorized)
  | Some authenticatedUser =>
      let userId' := au_userId authenticatedUser in
      let (w1, found) := findOneByUserId userId' w in
      match found with
      | None => (w1, ProfileThrow (ApiError_notFound "用戶"))
      | Some user =>
          let user' :=
            match pr_name req with
            | Some name' => set_name user name'
            | None => user
            end in
          match check_birthday R (pr_birthday req) with
          | Some e => (w1, ProfileThrow e)
          | None =>
              match check_gender R (pr_gender req) with
              | Some e => (w1, ProfileThrow e)
              | None =>
                  let w2 := save user' w1 in
                  let (w3, updatedSelectedUser) := findOneSelected userId' w2 in
                  match updatedSelectedUser with
                  | None => (w3, ProfileThrow ApiError_systemError)
                  | Some selected => (w3, ProfileJson 200 "用戶資料更新成功" selected)
                  end
              end
          end
      end
  end.

(* ===================================================================== *)
(** ** models/user.ts: verification and reset codes *)
(* ===================================================================== *)

(** The four columns [createVerificationToken] and
    [createPasswordResetToken] write. *)
Record UserCodes : Type := mkUserCodes {
  verificationToken : option string;
  verificationTokenExpires : option Z;
  passwordResetToken : option string;
  passwordResetExpires : option Z
}.

(** What both methods return. *)
Record TokenAndCode : Type := mkTokenAndCode {
  tc_token : string;
  tc_code : string
}.

(** A natural number as [join] prints it. *)
Definition number_to_string (n : nat) : string :=
  NilEmpty.string_of_uint (Nat.to_uint n).

(** [Array(6).fill(0).map(() => Math.floor(Math.random() * 10)).join('')],
    where [draw i] is the value of [Math.floor(Math.random() * 10)] at the
    call for index [i]. *)
Definition six_digit_code (draw : nat -> nat) : string :=
  String.concat EmptyString (map (fun i => number_to_string (draw i)) (seq 0 6)).

(** [10 * 60 * 1000]. *)
Definition ten_minutes : Z := (10 * 60 * 1000)%Z.

(** [User.createVerificationToken], at the instant [Date.now() = now']. *)
Definition createVerificationToken (draw : nat -> nat) (now' : Z) (c : UserCodes)
  : UserCodes * TokenAndCode :=
  let code := six_digit_code draw in
  (mkUserCodes (Some code) (Some (now' + ten_minutes)%Z)
               (passwordResetToken c) (passwordResetExpires c),
   mkTokenAndCode EmptyString code).

(** [User.createPasswordResetToken]. *)
Definition createPasswordResetToken (draw : nat -> nat) (now' : Z) (c : UserCodes)
  : UserCodes * TokenAndCode :=
  let code := six_digit_code draw in
  (mkUserCodes (verificationToken c) (verificationTokenExpires c)
               (Some code) (Some (now' + ten_minutes)%Z),
   mkTokenAndCode EmptyString code).

(* ===================================================================== *)
(** ** app.ts: the error-handling middleware *)
(* ===================================================================== *)

(** The members of the error the middleware reads. *)
Record Err : Type := mkErr {
  err_status : option Z;
  err_message : option string;
  err_code : option string;
  err_name : option string;
  err_stack : option string
}.

(** [err.status || 500]. *)
Definition statusCode (err : Err) : Z :=
  match err_status err with
  | Some s => if Z.eqb s 0 then 500%Z else s
  | None => 500%Z
  end.

Definition name_is (err : Err) (n : string) : bool :=
  match err_name err with
  | Some n' => String.eqb n' n
  | None => false
  end.

(** The pair ([errorCode], [message]) after the [if (!errorCode)] block. *)
Definition classify (err : Err) : string * string :=
  let message := Js.or_else (err_message err) "系統發生錯誤" in
  let errorCode := Js.or_else (err_code err) EmptyString in
  let status := statusCode err in
  if negb (Js.truthy (Some errorCode)) then
    if name_is err "EntityPropertyNotFoundError" then ("S02", "操作失敗，請稍後再試")
    else if name_is err "ValidationError" then ("V01", "提交的數據格式不正確")
    else if Z.eqb status 404 then ("D01", message)
    else if Z.eqb status 401 then ("A06", message)
    else if Z.eqb status 403 then ("A07", message)
    else if Z.eqb status 429 then ("S03", message)
    else if Z.leb 400 status && Z.ltb status 500 then ("V01", message)
    else ("S01", message)
  else (errorCode, message).

(** The JSON body of an error response; [eb_details] is the member
    [details], absent from the printed body when it is [None]. *)
Record ErrorBody : Type := mkErrorBody {
  eb_status : string;
  eb_message : string;
  eb_details : option string
}.

(** What the middleware does: hands the error on, or answers. *)
Inductive Handled : Type :=
| PassedOn (err : Err)
| Responded (status : Z) (body : ErrorBody).

(** [process.env.NODE_ENV === 'development']. *)
Definition isDev (env_NODE_ENV : option string) : bool :=
  match env_NODE_ENV with
  | Some v => String.eqb v "development"
  | None => false
  end.

(** The error-handling middleware of [app]; the line it writes with
    [console.error] is left out. *)
Definition errorHandler (env_NODE_ENV : option string) (err : Err) (headersSent : bool)
  : Handled :=
  let message := snd (classify err) in
  let errorResponse :=
    mkErrorBody "failed" message
                (if isDev env_NODE_ENV then err_stack err else None) in
  if headersSent then PassedOn err
  else Responded (statusCode err) errorResponse.

(* ===================================================================== *)
(** ** Vocabulary of the specification *)
(* ===================================================================== *)

(** A value in the recognised hash format: it begins with one of the
    bcrypt prefixes [$2a$], [$2b$], [$2y$]. *)
Definition recognized_prefix (s : string) : Prop :=
  String.prefix "$2a$" s = true \/
  String.prefix "$2b$" s = true \/
  String.prefix "$2y$" s = true.

(** The links of a user, and the invariant of the data model: at most one
    link per distinct provider value. *)
Definition one_link_per_provider (l : list OAuthProvider) : Prop :=
  NoDup (map provider l).

Definition links_for (p : string) (l : list OAuthProvider) : list OAuthProvider :=
  filter (fun x => String.eqb (provider x) p) l.

Definition store_invariant (w : World) : Prop :=
  forall u, In u (rows w) -> one_link_per_provider (providers_or_empty u).

(** The user a login under the email [email'] resolves to, by the branch
    the callback takes. *)
Definition resolved_user (E : Env) (accessToken' : string) (refreshToken' : option string)
    (profile : Profile) (email' : string) (w : World) : User :=
  let googleId := id profile in
  let avatarUrl := first_value (photos profile) in
  match lookup_email email' (rows w) with
  | Some user =>
      match existingProvider user with
      | Some _ => relogin_user E googleId accessToken' refreshToken' avatarUrl user
      | None => linked_user E googleId accessToken' refreshToken' avatarUrl user
      end
  | None => created_user E googleId accessToken' refreshToken' avatarUrl profile email'
  end.

(** The token material of a link replaced, everything else kept. *)
Definition with_tokens (accessToken' : string) (refreshToken' : option string)
    (expires : Z) (p : OAuthProvider) : OAuthProvider :=
  mkOAuthProvider (provider p) (providerId p) accessToken' refreshToken' expires.

(** The same, on the link of one provider in a list. *)
Definition retoken (p : string) (accessToken' : string) (refreshToken' : option string)
    (expires : Z) (l : list OAuthProvider) : list OAuthProvider :=
  map (fun x => if String.eqb (provider x) p
                then with_tokens accessToken' refreshToken' expires x
                else x) l.

(** A text without a blank, and a text that is empty or starts with one. *)
Definition no_blank (s : string) : Prop := forall b r, s <> b ++ String " " r.

Definition blank_or_end (tail : string) : Prop :=
  tail = EmptyString \/ exists r, tail = String " " r.

(** The [Authorization] header read as the envelope [Bearer <token>]: the
    token part is the text after [Bearer] and its blank, up to the next
    blank or the end of the header. *)
Definition bearer_token_part (authHeader token : string) : Prop :=
  exists tail,
    authHeader = "Bearer " ++ token ++ tail /\ no_blank token /\ blank_or_end tail.





(** The keys of the table: the primary key and the unique [email] column
    hold no value twice. *)
Definition keys_unique (w : World) : Prop :=
  NoDup (map userId (rows w)) /\ NoDup (map email (rows w)).

(** The keys of rows, as pairs (user id, email). *)
Definition key_pairs (l : list User) : list (string * string) :=
  map (fun r => (userId r, email r)) l.


(** A decimal digit. *)
Definition is_digit (c : ascii) : bool :=
  Nat.leb 48 (nat_of_ascii c) && Nat.leb (nat_of_ascii c) 57.

(** A text without an occurrence of the character [c]. *)
Definition free_of (c : ascii) (s : string) : Prop :=
  forall b r, s <> b ++ String c r.

(** The strings [toEnglishGender] takes for a gender. *)
Definition gender_names : list string :=
  ["male"; "female"; "other"; "男"; "女"; "其他"].

(* ===================================================================== *)
(** ** Sample values *)
(* ===================================================================== *)

Definition alice : User :=
  mkUser "u-1" "a@x.com" None "alice" USER None (Some false) (Some []).

(** A user linked to Google under the subject [g123], whose email is not
    marked verified. *)
Definition bob : User :=
  mkUser "u-2" "b@x.com" None "bob" USER None (Some false)
         (Some [mkOAuthProvider "google" "g123" "old-access" (Some "old-refresh") 1000]).

(** A user linked to another provider only. *)
Definition carol : User :=
  mkUser "u-3" "c@x.com" None "carol" ADMIN (Some "https://x.com/c.png") (Some true)
         (Some [mkOAuthProvider "facebook" "f77" "fb-access" (Some "fb-refresh") 2000]).

Definition world0 : World := mkWorld [alice; bob; carol] [] [].

Definition profile_of (subject email' : string) : Profile :=
  mkProfile subject (Some "Name") (Some [email']) None.

(** A verifier that accepts one token, for one user id. *)
Definition jwt_for (token id' : string) : Jwt :=
  mkJwt (fun t _ => if String.eqb t token
                    then JwtReturns (mkTokenPayload (Some id'))
                    else JwtThrows (JsonWebTokenError "jwt malformed")).


Definition env0 : Env := mkEnv 5000 "u-new".
Definition env1 : Env := mkEnv 9000 "u-newer".

(** A runtime for the samples: its [trim] empties a text of blanks and
    leaves any other text alone, and its date parser accepts one date. *)
Fixpoint all_blank (s : string) : bool :=
  match s with
  | EmptyString => true
  | String c s' => Ascii.eqb c " " && all_blank s'
  end.

Definition sample_runtime : Runtime :=
  mkRuntime (fun s => if all_blank s then EmptyString else s)
            (fun s => String.eqb s "1990-01-31").

Definition profile_request (who : string) (name' : option string)
    (birthday : BirthdayInput) (gender : GenderInput) : ProfileRequest :=
  mkProfileRequest (Some (mkAuthenticatedUser who "user" "x@x.com")) name'
                   None (Some "0912345678") birthday gender None None None None.

Definition no_codes : UserCodes := mkUserCodes None None None None.

(* ===================================================================== *)
(** * Properties *)
(* ===================================================================== *)

(** ** Strings *)

Lemma prefix_app (p s : string) :
  String.prefix p s = true <-> exists rest, s = p ++ rest.
Proof.
  revert s; induction p as [|a p IH]; intros s; simpl.
  - split; [intros _; exists s; reflexivity | destruct s; reflexivity].
  - destruct s as [|b s].
    + split; [discriminate | intros [r Hr]; discriminate].
    + simpl. destruct (ascii_dec a b) as [->|Hab].
      * rewrite IH. split; intros [r Hr]; exists r; [now rewrite Hr | now inversion Hr].
      * split; [discriminate | intros [r Hr]; injection Hr as Hc _; now elim Hab].
Qed.

Lemma bcrypt_prefix_test_spec (s : string) :
  bcrypt_prefix_test s = true <-> recognized_prefix s.
Proof.
  unfold recognized_prefix. rewrite !prefix_app. split.
  - destruct s as [|c0 [|c1 [|c2 [|c3 r]]]]; simpl; try discriminate.
    rewrite !andb_true_iff, !orb_true_iff, !Ascii.eqb_eq.
    intros [[[-> ->] H] ->].
    destruct H as [[-> | ->] | ->]; [left | right; left | right; right];
      exists r; reflexivity.
  - intros [[r ->] | [[r ->] | [r ->]]]; reflexivity.
Qed.

Lemma bcrypt_prefix_test_false (s : string) :
  ~ recognized_prefix s -> bcrypt_prefix_test s = false.
Proof.
  intros H. destruct (bcrypt_prefix_test s) eqn:E; [|reflexivity].
  apply bcrypt_prefix_test_spec in E. contradiction.
Qed.

Lemma truthy_Some (s : string) : Js.truthy (Some s) = true <-> s <> EmptyString.
Proof.
  simpl. rewrite negb_true_iff. split.
  - intros H ->. discriminate.
  - intros H. destruct (String.eqb s "") eqn:E; [|reflexivity].
    apply String.eqb_eq in E. contradiction.
Qed.

(** ** The credential store *)

Section CredentialStore.

Variable B : Bcrypt.

Lemma hashPassword_no_password salt u :
  password u = None -> hashPassword B salt u = u.
Proof. unfold hashPassword. now intros ->. Qed.

Lemma hashPassword_recognized salt u p :
  password u = Some p -> recognized_prefix p -> hashPassword B salt u = u.
Proof.
  intros Hp Hr. unfold hashPassword. rewrite Hp.
  apply bcrypt_prefix_test_spec in Hr. rewrite Hr.
  now rewrite andb_false_r.
Qed.

Lemma hashPassword_plain salt u p :
  password u = Some p -> p <> EmptyString -> ~ recognized_prefix p ->
  hashPassword B salt u = set_password u (Some (hash B p 12 salt)).
Proof.
  intros Hp Hne Hr. unfold hashPassword. rewrite Hp.
  apply truthy_Some in Hne. rewrite Hne.
  now rewrite (bcrypt_prefix_test_false _ Hr).
Qed.

Hypothesis contract : BcryptContract B.

Lemma hash_recognized data rounds salt :
  recognized_prefix (hash B data rounds salt).
Proof.
  unfold recognized_prefix.
  destruct (hash_format B contract data rounds salt); tauto.
Qed.

Lemma hash_nonempty data rounds salt :
  hash B data rounds salt <> EmptyString.
Proof.
  intros E. pose proof (hash_recognized data rounds salt) as H.
  rewrite E in H. destruct H as [H | [H | H]]; discriminate.
Qed.

End CredentialStore.

Lemma tag_bcrypt_contract : BcryptContract tag_bcrypt.
Proof.
  split; intros data rounds salt; simpl.
  - apply String.eqb_refl.
  - right. apply prefix_app. exists data. reflexivity.
Qed.

(** C1, as stated, fails on the code.  A plaintext that begins with a
    recognised prefix is stored as it is, so the stored value equals it; and
    the empty plaintext is stored as it is and verification answers false. *)
Lemma setPassword_verify_counterexample :
  (forall B salt u,
     password (setPassword B salt u "$2b$hunter2") = Some "$2b$hunter2") /\
  (forall B salt u,
     comparePassword B (setPassword B salt u "") "" = false).
Proof.
  split; intros B salt u; reflexivity.
Qed.

(** C1, amended: for every non-empty plaintext [P] that does not begin with a
    recognised bcrypt prefix, storing [P] through the pre-persist hook and
    then verifying the candidate [P] returns true, and the stored value is a
    hash different from [P]. *)
Theorem setPassword_verify (B : Bcrypt) (contract : BcryptContract B)
    (salt : string) (u : User) (P : string) :
  P <> EmptyString -> ~ recognized_prefix P ->
  comparePassword B (setPassword B salt u P) P = true /\
  password (setPassword B salt u P) = Some (hash B P 12 salt) /\
  password (setPassword B salt u P) <> Some P.
Proof.
  intros Hne Hplain. unfold setPassword.
  rewrite (hashPassword_plain B salt (set_password u (Some P)) P eq_refl Hne Hplain).
  unfold comparePassword; cbn [password set_password].
  pose proof (hash_nonempty B contract P 12 salt) as Hh.
  apply truthy_Some in Hh. rewrite Hh. cbn [negb].
  split; [apply (compare_hash B contract) | split; [reflexivity|]].
  intros E. injection E as E. apply Hplain. rewrite <- E.
  apply (hash_recognized B contract).
Qed.

Lemma setPassword_verify_witness :
  comparePassword tag_bcrypt (setPassword tag_bcrypt "salt" alice "hunter2") "hunter2" = true /\
  password (setPassword tag_bcrypt "salt" alice "hunter2")
    = Some (hash tag_bcrypt "hunter2" 12 "salt") /\
  password (setPassword tag_bcrypt "salt" alice "hunter2") <> Some "hunter2".
Proof.
  apply (setPassword_verify tag_bcrypt tag_bcrypt_contract "salt" alice "hunter2").
  - discriminate.
  - intros [H | [H | H]]; vm_compute in H; discriminate.
Defined.

(** C2: the hook is idempotent on hashed input.  A value already in the
    recognised hash format is stored unchanged, and running the hook a
    second time, with whatever salt, changes nothing the first run stored. *)
Theorem hashPassword_idempotent (B : Bcrypt) (contract : BcryptContract B) :
  (forall salt u V,
     recognized_prefix V ->
     setPassword B salt u V = set_password u (Some V)) /\
  (forall salt salt' u,
     hashPassword B salt' (hashPassword B salt u) = hashPassword B salt u) /\
  (forall salt salt' u P,
     hashPassword B salt' (setPassword B salt u P) = setPassword B salt u P).
Proof.
  assert (Htwice : forall salt salt' u,
             hashPassword B salt' (hashPassword B salt u) = hashPassword B salt u).
  { intros salt salt' u. destruct (password u) as [p|] eqn:Hp.
    - destruct (Js.truthy (Some p) && negb (bcrypt_prefix_test p)) eqn:E.
      + assert (H1 : hashPassword B salt u = set_password u (Some (hash B p 12 salt)))
          by (unfold hashPassword; now rewrite Hp, E).
        rewrite H1.
        apply hashPassword_recognized with (p := hash B p 12 salt);
          [reflexivity | apply (hash_recognized B contract)].
      + assert (H1 : forall s, hashPassword B s u = u)
          by (intros s; unfold hashPassword; now rewrite Hp, E).
        now rewrite !H1.
    - rewrite (hashPassword_no_password B salt u Hp).
      apply hashPassword_no_password, Hp. }
  split; [|split].
  - intros salt u V HV. unfold setPassword.
    apply hashPassword_recognized with (p := V); [reflexivity | exact HV].
  - exact Htwice.
  - intros salt salt' u P. unfold setPassword. apply Htwice.
Qed.

Lemma hashPassword_idempotent_witness :
  setPassword tag_bcrypt "s" alice "$2b$12$abcdefghijklmnopqrstuu"
    = set_password alice (Some "$2b$12$abcdefghijklmnopqrstuu") /\
  hashPassword tag_bcrypt "s'" (hashPassword tag_bcrypt "s" (set_password alice (Some "pw")))
    = hashPassword tag_bcrypt "s" (set_password alice (Some "pw")).
Proof.
  destruct (hashPassword_idempotent tag_bcrypt tag_bcrypt_contract) as [H1 [H2 _]].
  split.
  - apply H1. right; left. reflexivity.
  - apply H2.
Defined.

(** C10: a password value that begins with [$2a$], [$2b$] or [$2y$], a
    plaintext of that shape included, passes the hook verbatim: it is
    persisted as it was typed, and verification hands it to bcrypt as if it
    were a hash. *)
Theorem prefixed_password_stored_verbatim (B : Bcrypt) (salt : string) (u : User)
    (V : string) :
  recognized_prefix V ->
  setPassword B salt u V = set_password u (Some V) /\
  password (setPassword B salt u V) = Some V /\
  (forall candidate,
     comparePassword B (setPassword B salt u V) candidate = compare B candidate V).
Proof.
  intros HV.
  assert (E : setPassword B salt u V = set_password u (Some V)).
  { unfold setPassword. now apply hashPassword_recognized with (p := V). }
  rewrite E. split; [reflexivity | split; [reflexivity|]].
  intros candidate. unfold comparePassword; cbn [password set_password].
  assert (Hne : V <> EmptyString).
  { intros ->. destruct HV as [H | [H | H]]; discriminate. }
  apply truthy_Some in Hne. now rewrite Hne.
Qed.

Lemma prefixed_password_stored_verbatim_witness :
  setPassword tag_bcrypt "s" alice "$2y$letmein" = set_password alice (Some "$2y$letmein") /\
  password (setPassword tag_bcrypt "s" alice "$2y$letmein") = Some "$2y$letmein" /\
  (forall candidate,
     comparePassword tag_bcrypt (setPassword tag_bcrypt "s" alice "$2y$letmein") candidate
     = compare tag_bcrypt candidate "$2y$letmein").
Proof.
  apply (prefixed_password_stored_verbatim tag_bcrypt "s" alice "$2y$letmein").
  right; right. reflexivity.
Defined.

(** ** The token verifier *)

Lemma split_head (s : string) :
  exists piece pieces tail,
    Js.split " " s = piece :: pieces /\ s = piece ++ tail /\
    no_blank piece /\ blank_or_end tail.
Proof.
  induction s as [|c s IH].
  - exists EmptyString, [], EmptyString. repeat split.
    + intros [|x b] r; discriminate.
    + now left.
  - simpl. destruct (Ascii.eqb c " ") eqn:Ec.
    + apply Ascii.eqb_eq in Ec. subst c.
      exists EmptyString, (Js.split " " s), (String " " s). repeat split.
      * intros [|x b] r; discriminate.
      * right. now exists s.
    + destruct IH as (piece & pieces & tail & Hs & Hcat & Hnb & Htail).
      rewrite Hs. exists (String c piece), pieces, tail. repeat split.
      * simpl. now rewrite <- Hcat.
      * intros [|x b] r E; simpl in E; injection E as Ex Er.
        -- subst c. now rewrite Ascii.eqb_refl in Ec.
        -- now apply (Hnb b r).
      * exact Htail.
Qed.

Lemma no_blank_tail (c : ascii) (s : string) : no_blank (String c s) -> no_blank s.
Proof. intros H b r E. apply (H (String c b) r). simpl. now rewrite E. Qed.

Lemma no_blank_head (c : ascii) (s : string) : no_blank (String c s) -> c <> " "%char.
Proof. intros H E. apply (H EmptyString s). simpl. now rewrite E. Qed.

Lemma token_part_unique (t t' tail tail' : string) :
  t ++ tail = t' ++ tail' ->
  no_blank t -> no_blank t' -> blank_or_end tail -> blank_or_end tail' ->
  t = t'.
Proof.
  revert t'. induction t as [|c t IH]; intros [|c' t'] E Ht Ht' Htl Htl'; simpl in E.
  - reflexivity.
  - exfalso. destruct Htl as [-> | [r ->]]; [discriminate|].
    injection E as Ec _. apply (no_blank_head _ _ Ht'). now symmetry.
  - exfalso. destruct Htl' as [-> | [r ->]]; [discriminate|].
    injection E as Ec _. now apply (no_blank_head _ _ Ht).
  - injection E as Ec E. subst c'. f_equal.
    apply IH; eauto using no_blank_tail.
Qed.

(** What the code takes for the token is the token part of the envelope. *)
Lemma split_token_part (authHeader : string) :
  Js.startsWith "Bearer " authHeader = true ->
  exists token,
    Js.index (Js.split " " authHeader) 1 = Some token /\
    bearer_token_part authHeader token.
Proof.
  intros H. apply prefix_app in H. destruct H as [rest ->].
  destruct (split_head rest) as (piece & pieces & tail & Hs & Hcat & Hnb & Htail).
  exists piece. split.
  - cbn. now rewrite Hs.
  - exists tail. repeat split; [now rewrite Hcat | exact Hnb | exact Htail].
Qed.

Lemma bearer_token_part_unique (authHeader t t' : string) :
  bearer_token_part authHeader t -> bearer_token_part authHeader t' -> t = t'.
Proof.
  intros (tail & E & Hnb & Htail) (tail' & E' & Hnb' & Htail').
  rewrite E in E'. injection E' as E'.
  now apply (token_part_unique t t' tail tail').
Qed.

Lemma bearer_token_part_prefix (authHeader t : string) :
  bearer_token_part authHeader t -> Js.startsWith "Bearer " authHeader = true.
Proof.
  intros (tail & E & _). apply prefix_app. now exists (t ++ tail).
Qed.

(** The middleware on a header that carries a non-empty token. *)
Lemma isAuthenticated_with_token (J : Jwt) (env_JWT_SECRET : option string)
    (authHeader token : string) (w : World) :
  token <> EmptyString -> bearer_token_part authHeader token ->
  isAuthenticated J env_JWT_SECRET (Some authHeader) w =
  match verify J token (jwt_secret env_JWT_SECRET) with
  | JwtThrows e =>
      (w, if instanceof_JsonWebTokenError e
          then NextError (ThrownApi (ApiError_create 401 "無效的認證令牌"
                                                     AUTH_TOKEN_INVALID))
          else NextError (ThrownJwt e))
  | JwtReturns decoded =>
      match tp_userId decoded with
      | Some id' =>
          if String.eqb id' EmptyString
          then (w, NextError (ThrownApi (ApiError_create 401 "無效的認證令牌"
                                                         AUTH_TOKEN_INVALID)))
          else
            match lookup_userId id' (rows w) with
            | Some user =>
                (log_op (FindOneByUserId id') w,
                 NextOk (mkReqUser (userId user) (role user) (email user)
                                   (name user) (isEmailVerified user)))
            | None =>
                (log_op (FindOneByUserId id') w,
                 NextError (ThrownApi (ApiError_notFound "用戶")))
            end
      | None => (w, NextError (ThrownApi (ApiError_create 401 "無效的認證令牌"
                                                          AUTH_TOKEN_INVALID)))
      end
  end.
Proof.
  intros Hne Hpart.
  pose proof (bearer_token_part_prefix _ _ Hpart) as Hpre.
  destruct (split_token_part _ Hpre) as (t & Hidx & Hpart').
  assert (t = token) by (eapply bearer_token_part_unique; eauto). subst t.
  assert (Hh : Js.truthy (Some authHeader) = true).
  { apply truthy_Some. intros ->. discriminate. }
  unfold isAuthenticated, isAuthenticated_try.
  rewrite Hh, Hpre, Hidx. cbn [negb orb].
  apply truthy_Some in Hne. rewrite Hne. cbn [negb].
  destruct (verify J token (jwt_secret env_JWT_SECRET)) as [e | decoded].
  - cbn. now destruct e.
  - destruct (tp_userId decoded) as [id'|] eqn:Eid; [|reflexivity].
    cbn [Js.truthy]. destruct (String.eqb id' EmptyString); cbn [negb]; [reflexivity|].
    unfold findOneByUserId.
    now destruct (lookup_userId id' (rows w)).
Qed.







(** ** The repository *)

Lemma In_replace_row (u : User) (l : list User) :
  existsb (fun r => String.eqb (userId r) (userId u)) l = true ->
  In u (replace_row u l).
Proof.
  induction l as [|r l IH]; simpl; [discriminate|].
  destruct (String.eqb (userId r) (userId u)); simpl; [now left | right; auto].
Qed.

Lemma In_upsert (u : User) (l : list User) : In u (upsert u l).
Proof.
  unfold upsert.
  destruct (existsb _ l) eqn:E.
  - now apply In_replace_row.
  - apply in_or_app. right. now left.
Qed.

(** A row of the table after an upsert is the written row or an old one. *)
Lemma In_upsert_inv (u r : User) (l : list User) :
  In r (upsert u l) -> r = u \/ In r l.
Proof.
  unfold upsert. destruct (existsb _ l).
  - unfold replace_row. rewrite in_map_iff. intros (x & Hx & Hin).
    destruct (String.eqb (userId x) (userId u)); [now left | right; now subst].
  - intros H. apply in_app_or in H. destruct H as [H | [H | []]]; auto.
Qed.

Lemma lookup_email_In (e : string) (l : list User) (u : User) :
  lookup_email e l = Some u -> In u l /\ email u = e.
Proof.
  unfold lookup_email. intros H. apply find_some in H.
  now rewrite String.eqb_eq in H.
Qed.

Lemma lookup_userId_In (i : string) (l : list User) (u : User) :
  lookup_userId i l = Some u -> In u l /\ userId u = i.
Proof.
  unfold lookup_userId. intros H. apply find_some in H.
  now rewrite String.eqb_eq in H.
Qed.

Lemma existsb_userId (u u0 : User) (l : list User) :
  In u0 l -> userId u = userId u0 ->
  existsb (fun r => String.eqb (userId r) (userId u)) l = true.
Proof.
  intros Hin Hid. apply existsb_exists. exists u0. split; [exact Hin|].
  rewrite Hid. apply String.eqb_refl.
Qed.

(** Reading back by email the row just written over the one found. *)
Lemma lookup_email_replace_row (e : string) (u u0 : User) (l : list User) :
  lookup_email e l = Some u0 -> userId u = userId u0 -> email u = e ->
  lookup_email e (replace_row u l) = Some u.
Proof.
  intros Hfind Hid Hemail. unfold lookup_email in *.
  induction l as [|r l IH]; simpl in *; [discriminate|].
  destruct (String.eqb (email r) e) eqn:Er.
  - injection Hfind as ->. rewrite Hid, String.eqb_refl. simpl.
    now rewrite Hemail, String.eqb_refl.
  - destruct (String.eqb (userId r) (userId u)); simpl.
    + now rewrite Hemail, String.eqb_refl.
    + rewrite Er. auto.
Qed.

Lemma lookup_email_replace_new (e : string) (u : User) (l : list User) :
  existsb (fun r => String.eqb (userId r) (userId u)) l = true -> email u = e ->
  lookup_email e l = None ->
  lookup_email e (replace_row u l) = Some u.
Proof.
  intros Hex Hemail Hnone. unfold lookup_email in *.
  induction l as [|r l IH]; simpl in *; [discriminate|].
  destruct (String.eqb (email r) e) eqn:Er; [discriminate|].
  destruct (String.eqb (userId r) (userId u)); simpl in *.
  - now rewrite Hemail, String.eqb_refl.
  - rewrite Er. auto.
Qed.

Lemma lookup_email_app_new (e : string) (u : User) (l : list User) :
  email u = e -> lookup_email e l = None -> lookup_email e (l ++ [u]) = Some u.
Proof.
  intros Hemail Hnone. unfold lookup_email in *.
  induction l as [|r l IH]; simpl in *.
  - now rewrite Hemail, String.eqb_refl.
  - destruct (String.eqb (email r) e); [discriminate | auto].
Qed.

(** Upsert, then lookup by email: the written row comes back, whether it
    replaced the row found under that email or was the first under it. *)
Lemma lookup_email_upsert (e : string) (u : User) (l : list User) :
  email u = e ->
  match lookup_email e l with
  | Some u0 => userId u = userId u0
  | None => True
  end ->
  lookup_email e (upsert u l) = Some u.
Proof.
  intros Hemail H. unfold upsert.
  destruct (lookup_email e l) as [u0|] eqn:Hfind.
  - destruct (lookup_email_In _ _ _ Hfind) as [Hin _].
    rewrite (existsb_userId u u0 l Hin H).
    now apply lookup_email_replace_row with (u0 := u0).
  - destruct (existsb _ l) eqn:Hex.
    + now apply lookup_email_replace_new.
    + now apply lookup_email_app_new.
Qed.

Lemma upsert_existing (u u0 : User) (l : list User) :
  In u0 l -> userId u = userId u0 -> upsert u l = replace_row u l.
Proof.
  intros Hin Hid. unfold upsert. now rewrite (existsb_userId u u0 l Hin Hid).
Qed.

(** ** Provider links *)

Lemma is_google_spec (p : OAuthProvider) : is_google p = true <-> provider p = "google".
Proof. apply String.eqb_eq. Qed.

Lemma find_google_none (l : list OAuthProvider) :
  find is_google l = None -> ~ In "google" (map provider l).
Proof.
  intros H Hin. apply in_map_iff in Hin. destruct Hin as (p & Hp & Hin).
  apply (find_none _ _ H) in Hin. apply is_google_spec in Hp. congruence.
Qed.

Lemma not_in_links_for (q : string) (l : list OAuthProvider) :
  ~ In q (map provider l) -> links_for q l = [].
Proof.
  induction l as [|p l IH]; simpl; [reflexivity|]. intros H.
  destruct (String.eqb (provider p) q) eqn:E.
  - apply String.eqb_eq in E. tauto.
  - apply IH. tauto.
Qed.

Lemma assign_first_provider (f : OAuthProvider -> OAuthProvider) (l : list OAuthProvider) :
  (forall p, provider (f p) = provider p) ->
  map provider (assign_first f l) = map provider l.
Proof.
  intros Hf. induction l as [|p l IH]; simpl; [reflexivity|].
  destruct (is_google p); simpl; [now rewrite Hf | now rewrite IH].
Qed.

(** Under the invariant, changing the first Google link is changing the
    Google link. *)
Lemma assign_first_map (f : OAuthProvider -> OAuthProvider) (l : list OAuthProvider) :
  one_link_per_provider l ->
  assign_first f l = map (fun p => if is_google p then f p else p) l.
Proof.
  unfold one_link_per_provider.
  induction l as [|p l IH]; simpl; [reflexivity|]. intros Hnd.
  apply NoDup_cons_iff in Hnd. destruct Hnd as [Hnotin Hnd].
  destruct (is_google p) eqn:Ep.
  - f_equal. apply is_google_spec in Ep. rewrite Ep in Hnotin.
    clear -Hnotin. induction l as [|q l IH]; simpl; [reflexivity|].
    simpl in Hnotin. destruct (is_google q) eqn:Eq.
    + apply is_google_spec in Eq. tauto.
    + f_equal. apply IH. tauto.
  - f_equal. now apply IH.
Qed.

Lemma links_for_google_found (l : list OAuthProvider) (g : OAuthProvider) :
  one_link_per_provider l -> find is_google l = Some g ->
  links_for "google" l = [g].
Proof.
  unfold one_link_per_provider.
  induction l as [|p l IH]; simpl; [discriminate|]. intros Hnd Hfind.
  apply NoDup_cons_iff in Hnd. destruct Hnd as [Hnotin Hnd].
  unfold is_google in Hfind at 1.
  destruct (String.eqb (provider p) "google") eqn:Ep.
  - injection Hfind as ->. f_equal. apply not_in_links_for.
    apply String.eqb_eq in Ep. now rewrite <- Ep.
  - now apply IH.
Qed.

Lemma find_google_In (l : list OAuthProvider) (g : OAuthProvider) :
  one_link_per_provider l -> In g l -> provider g = "google" ->
  find is_google l = Some g.
Proof.
  unfold one_link_per_provider.
  induction l as [|p l IH]; simpl; [tauto|]. intros Hnd Hin Hg.
  apply NoDup_cons_iff in Hnd. destruct Hnd as [Hnotin Hnd].
  destruct Hin as [-> | Hin].
  - apply is_google_spec in Hg. now rewrite Hg.
  - destruct (is_google p) eqn:Ep; [|now apply IH].
    exfalso. apply Hnotin. apply is_google_spec in Ep. rewrite Ep, <- Hg.
    now apply in_map.
Qed.

Lemma one_link_app_google (l : list OAuthProvider) (g : OAuthProvider) :
  one_link_per_provider l -> find is_google l = None -> provider g = "google" ->
  one_link_per_provider (l ++ [g]) /\ links_for "google" (l ++ [g]) = [g].
Proof.
  unfold one_link_per_provider. intros Hnd Hnone Hg.
  apply find_google_none in Hnone. split.
  - rewrite map_app. simpl. rewrite Hg.
    apply NoDup_app; [exact Hnd | constructor; [tauto | constructor] |].
    intros x Hx [<- | []]. contradiction.
  - unfold links_for. rewrite filter_app.
    fold (links_for "google" l). rewrite (not_in_links_for _ _ Hnone).
    simpl. now rewrite Hg.
Qed.

Lemma find_google_assign_first (f : OAuthProvider -> OAuthProvider)
    (l : list OAuthProvider) (g : OAuthProvider) :
  (forall p, provider (f p) = provider p) ->
  find is_google l = Some g -> find is_google (assign_first f l) = Some (f g).
Proof.
  intros Hf. induction l as [|p l IH]; simpl; [discriminate|].
  destruct (is_google p) eqn:Ep.
  - intros [= ->]. simpl. unfold is_google in *. now rewrite Hf, Ep.
  - intros H. simpl. rewrite Ep. auto.
Qed.

Lemma find_app_none {A : Type} (f : A -> bool) (l l' : list A) :
  find f l = None -> find f (l ++ l') = find f l'.
Proof.
  induction l as [|x l IH]; simpl; [reflexivity|].
  destruct (f x); [discriminate | exact IH].
Qed.

Lemma refresh_link_provider googleId a r x p :
  provider (refresh_link googleId a r x p) = provider p.
Proof. unfold refresh_link. now destruct (negb _). Qed.

Lemma refresh_link_value googleId a r x p :
  refresh_link googleId a r x p = mkOAuthProvider (provider p) googleId a r x.
Proof.
  unfold refresh_link. destruct (String.eqb (providerId p) googleId) eqn:E; simpl.
  - apply String.eqb_eq in E. now rewrite E.
  - reflexivity.
Qed.

Lemma refresh_link_same_id googleId a r x p :
  providerId p = googleId -> refresh_link googleId a r x p = with_tokens a r x p.
Proof. intros <-. now rewrite refresh_link_value. Qed.

(** ** The avatar rule *)

Lemma fill_avatar_providers a u : oauthProviders (fill_avatar a u) = oauthProviders u.
Proof. unfold fill_avatar. now destruct (_ && _). Qed.

Lemma fill_avatar_set_oauthProviders a u l :
  fill_avatar a (set_oauthProviders u l) = set_oauthProviders (fill_avatar a u) l.
Proof. unfold fill_avatar. simpl. now destruct (_ && _). Qed.

Lemma fill_avatar_set_isEmailVerified a u b :
  fill_avatar a (set_isEmailVerified u b) = set_isEmailVerified (fill_avatar a u) b.
Proof. unfold fill_avatar. simpl. now destruct (_ && _). Qed.

Lemma fill_avatar_idem a u : fill_avatar a (fill_avatar a u) = fill_avatar a u.
Proof.
  unfold fill_avatar.
  destruct (Js.truthy a) eqn:Ea; destruct (Js.truthy (avatar u)) eqn:Eu;
    cbn [andb negb avatar set_avatar]; rewrite ?Ea, ?Eu; reflexivity.
Qed.

Lemma fill_avatar_created a (u : User) :
  avatar u = a -> fill_avatar a u = u.
Proof.
  intros <-. unfold fill_avatar. now destruct (Js.truthy (avatar u)).
Qed.

(** ** The OAuth linker *)

Section Linker.

Variables (E : Env) (accessToken' : string) (refreshToken' : option string).
Variables (profile : Profile) (email' : string).

Hypothesis profile_id : id profile <> EmptyString.
Hypothesis profile_email : first_value (emails profile) = Some email'.
Hypothesis email_nonempty : email' <> EmptyString.

Local Abbreviation googleId := (id profile).
Local Abbreviation avatarUrl := (first_value (photos profile)).
Local Abbreviation resolved := (resolved_user E accessToken' refreshToken' profile email').

(** The callback on a profile that carries an id and an email. *)
Lemma googleVerify_valid (w : World) :
  googleVerify E accessToken' refreshToken' profile w =
  let w1 := log_op (FindOneByEmail email') w in
  match lookup_email email' (rows w) with
  | Some user =>
      match existingProvider user with
      | Some existing =>
          let user' :=
            relogin_user E googleId accessToken' refreshToken' avatarUrl user in
          (save user'
             (if negb (String.eqb (providerId existing) googleId)
              then warn (mismatch_warning email' (providerId existing) googleId) w1
              else w1),
           DoneUser (userData user'))
      | None =>
          let user' :=
            linked_user E googleId accessToken' refreshToken' avatarUrl user in
          (save user' w1, DoneUser (userData user'))
      end
  | None =>
      let newUser :=
        created_user E googleId accessToken' refreshToken' avatarUrl profile email' in
      (save newUser w1, DoneUser (userData newUser))
  end.
Proof.
  unfold googleVerify.
  apply truthy_Some in profile_id. rewrite profile_id. cbn [negb].
  rewrite profile_email.
  apply truthy_Some in email_nonempty. rewrite email_nonempty. cbn [negb].
  unfold findOneByEmail.
  destruct (lookup_email email' (rows w)) as [user|]; [|reflexivity].
  destruct (existingProvider user); reflexivity.
Qed.

Lemma googleVerify_rows (w : World) :
  rows (fst (googleVerify E accessToken' refreshToken' profile w))
  = upsert (resolved w) (rows w).
Proof.
  rewrite googleVerify_valid. unfold resolved_user.
  destruct (lookup_email email' (rows w)) as [user|]; [|reflexivity].
  destruct (existingProvider user) as [g|]; [|reflexivity].
  cbn. now destruct (negb _).
Qed.

Lemma googleVerify_done (w : World) :
  snd (googleVerify E accessToken' refreshToken' profile w)
  = DoneUser (userData (resolved w)).
Proof.
  rewrite googleVerify_valid. unfold resolved_user.
  destruct (lookup_email email' (rows w)) as [user|]; [|reflexivity].
  destruct (existingProvider user) as [g|]; reflexivity.
Qed.

Lemma resolved_key (w : World) :
  email (resolved w) = email' /\
  match lookup_email email' (rows w) with
  | Some u0 => userId (resolved w) = userId u0
  | None => True
  end.
Proof.
  unfold resolved_user.
  destruct (lookup_email email' (rows w)) as [user|] eqn:Hfind.
  - destruct (lookup_email_In _ _ _ Hfind) as [_ He].
    destruct (existingProvider user);
      unfold relogin_user, linked_user, fill_avatar;
      destruct (_ && _); simpl; auto.
  - simpl. auto.
Qed.

Lemma resolved_stored (w : World) :
  lookup_email email' (rows (fst (googleVerify E accessToken' refreshToken' profile w)))
  = Some (resolved w).
Proof.
  rewrite googleVerify_rows. destruct (resolved_key w) as [He Hid].
  now apply lookup_email_upsert.
Qed.

(** The resolved user has a Google link, the first of its list, with the
    asserted id and the new tokens; and its avatar needs no filling. *)
Lemma resolved_existing (w : World) :
  existingProvider (resolved w)
  = Some (google_link E googleId accessToken' refreshToken') /\
  fill_avatar avatarUrl (resolved w) = resolved w.
Proof.
  unfold resolved_user.
  destruct (lookup_email email' (rows w)) as [user|] eqn:Hfind.
  - destruct (existingProvider user) as [g|] eqn:Hg.
    + unfold relogin_user. split.
      * unfold existingProvider in *. rewrite fill_avatar_providers. simpl.
        unfold providers_or_empty.
        destruct (oauthProviders user) as [l|]; [|discriminate].
        rewrite (find_google_assign_first _ l g) by
          (try apply refresh_link_provider; exact Hg).
        rewrite refresh_link_value. unfold google_link. do 2 f_equal.
        apply find_some in Hg. now apply is_google_spec.
      * apply fill_avatar_idem.
    + unfold linked_user.
      assert (Hnone : find is_google (providers_or_empty user) = None).
      { unfold existingProvider, providers_or_empty in *.
        now destruct (oauthProviders user). }
      split.
      * unfold existingProvider. simpl. rewrite fill_avatar_providers. simpl.
        now rewrite (find_app_none _ _ _ Hnone).
      * rewrite fill_avatar_set_isEmailVerified, fill_avatar_idem. reflexivity.
  - split; [reflexivity | now apply fill_avatar_created].
Qed.

(** Under the invariant of the user found, it is the only Google link. *)
Lemma resolved_one_link (w : World) :
  (forall u, lookup_email email' (rows w) = Some u ->
             one_link_per_provider (providers_or_empty u)) ->
  one_link_per_provider (providers_or_empty (resolved w)).
Proof.
  intros Hinv. unfold resolved_user.
  destruct (lookup_email email' (rows w)) as [user|] eqn:Hfind.
  - pose proof (Hinv user eq_refl) as Hone.
    destruct (existingProvider user) as [g|] eqn:Hg.
    + unfold relogin_user.
      unfold providers_or_empty at 1. rewrite fill_avatar_providers. simpl.
      unfold one_link_per_provider.
      rewrite assign_first_provider by apply refresh_link_provider. exact Hone.
    + unfold linked_user.
      assert (Hnone : find is_google (providers_or_empty user) = None).
      { unfold existingProvider, providers_or_empty in *.
        now destruct (oauthProviders user). }
      unfold providers_or_empty at 1. simpl. rewrite fill_avatar_providers. simpl.
      now apply one_link_app_google.
  - simpl. unfold one_link_per_provider. simpl.
    constructor; [intros [] | constructor].
Qed.

Lemma store_invariant_googleVerify (w : World) :
  store_invariant w ->
  store_invariant (fst (googleVerify E accessToken' refreshToken' profile w)).
Proof.
  intros Hinv u Hin. rewrite googleVerify_rows in Hin.
  apply In_upsert_inv in Hin. destruct Hin as [-> | Hin]; [|now apply Hinv].
  apply resolved_one_link. intros u0 Hu0. apply Hinv.
  now apply (lookup_email_In email').
Qed.

End Linker.

(** A profile that fails the two precondition checks leaves the world as
    it is. *)
Lemma googleVerify_outcome (E : Env) (accessToken' : string)
    (refreshToken' : option string) (profile : Profile) (w : World) :
  (exists message,
     googleVerify E accessToken' refreshToken' profile w = (w, DoneError message)) \/
  (exists email',
     id profile <> EmptyString /\ first_value (emails profile) = Some email' /\
     email' <> EmptyString /\
     snd (googleVerify E accessToken' refreshToken' profile w)
     = DoneUser (userData (resolved_user E accessToken' refreshToken' profile email' w))).
Proof.
  destruct (String.eqb (id profile) EmptyString) eqn:Eid.
  - left. eexists. unfold googleVerify. cbn [Js.truthy]. rewrite Eid. reflexivity.
  - apply String.eqb_neq in Eid.
    destruct (first_value (emails profile)) as [email'|] eqn:Ee.
    + destruct (String.eqb email' EmptyString) eqn:Eem.
      * left. eexists. unfold googleVerify.
        apply truthy_Some in Eid. rewrite Eid, Ee. cbn [Js.truthy negb].
        rewrite Eem. reflexivity.
      * right. apply String.eqb_neq in Eem. exists email'.
        repeat split; try assumption. now apply googleVerify_done.
    + left. eexists. unfold googleVerify.
      apply truthy_Some in Eid. rewrite Eid, Ee. reflexivity.
Qed.

(** Logging in again with the id already stored: of the links only the
    token material of the Google link changes, a missing avatar is filled,
    and nothing is written to the console. *)
Lemma googleVerify_relogin_same_id (E : Env) (accessToken' : string)
    (refreshToken' : option string) (profile : Profile) (email' : string)
    (w : World) (u : User) (g : OAuthProvider) :
  id profile <> EmptyString -> first_value (emails profile) = Some email' ->
  email' <> EmptyString ->
  lookup_email email' (rows w) = Some u ->
  existingProvider u = Some g -> providerId g = id profile ->
  one_link_per_provider (providers_or_empty u) ->
  let u' := fill_avatar (first_value (photos profile))
              (set_oauthProviders u
                 (Some (retoken "google" accessToken' refreshToken' (expiry E)
                                (providers_or_empty u)))) in
  googleVerify E accessToken' refreshToken' profile w
  = (mkWorld (replace_row u' (rows w))
             (trace w ++ [FindOneByEmail email'; Save (userId u)])
             (console w),
     DoneUser (userData u')).
Proof.
  intros Hid Hemail Hne Hfind Hg Hsame Hone u'.
  assert (Hu' : relogin_user E (id profile) accessToken' refreshToken'
                  (first_value (photos profile)) u = u').
  { unfold relogin_user. subst u'. do 3 f_equal.
    rewrite (assign_first_map _ _ Hone). unfold retoken.
    apply map_ext_in. intros p Hp. unfold is_google.
    destruct (String.eqb (provider p) "google") eqn:Ep; [|reflexivity].
    apply refresh_link_same_id.
    assert (Hp' : find is_google (providers_or_empty u) = Some p)
      by (apply find_google_In; [exact Hone | exact Hp | now apply String.eqb_eq]).
    unfold existingProvider, providers_or_empty in *.
    destruct (oauthProviders u); congruence. }
  assert (Hkey : userId u' = userId u).
  { subst u'. unfold fill_avatar. now destruct (_ && _). }
  rewrite (googleVerify_valid E accessToken' refreshToken' profile email' Hid Hemail Hne).
  cbv zeta. rewrite Hfind, Hg, Hu', Hsame, String.eqb_refl. cbn [negb].
  destruct (lookup_email_In _ _ _ Hfind) as [Hin _].
  unfold save, log_op. cbn [rows trace console].
  rewrite (upsert_existing u' u (rows w) Hin Hkey), Hkey.
  now rewrite <- app_assoc.
Qed.

Lemma store_invariant_preserved (E : Env) (accessToken' : string)
    (refreshToken' : option string) (profile : Profile) (w : World) :
  store_invariant w ->
  store_invariant (fst (googleVerify E accessToken' refreshToken' profile w)).
Proof.
  intros Hinv.
  destruct (googleVerify_outcome E accessToken' refreshToken' profile w)
    as [(m & ->) | (e & Hid & He & Hne & _)]; [exact Hinv|].
  now apply (store_invariant_googleVerify E accessToken' refreshToken' profile e).
Qed.

(** C4, as stated, fails on the code.  Two calls with the same provider,
    provider id and email, the second with a photo and the first without:
    the user has no avatar after the first call and the photo as avatar
    after the second, so the second call changed more than the token
    material of the link. *)
Lemma oauth_second_call_sets_avatar :
  option_map avatar
    (lookup_email "a@x.com"
       (rows (fst (googleVerify env0 "at-1" None
                     (mkProfile "g123" (Some "Name") (Some ["a@x.com"]) None) world0))))
  = Some None /\
  option_map avatar
    (lookup_email "a@x.com"
       (rows (fst (googleVerify env1 "at-2" None
                     (mkProfile "g123" (Some "Name") (Some ["a@x.com"])
                                (Some ["https://g/p.png"]))
                     (fst (googleVerify env0 "at-1" None
                             (mkProfile "g123" (Some "Name") (Some ["a@x.com"]) None)
                             world0))))))
  = Some (Some "https://g/p.png").
Proof.
  split; reflexivity.
Qed.

(** C4, amended: linking is idempotent and keeps one link per provider.
    Every call of the callback preserves the invariant of the table.  And
    of two calls with the same provider id and email, the first leaves the
    user with exactly one Google link, and the second rewrites that link's
    access token, refresh token and expiry: no link is added, no other link
    and no provider id changes, nothing is written to the console, and no
    other field of the user changes, apart from an avatar that was still
    missing and that the second profile supplies (none when the two
    profiles carry the same photo). *)
Theorem oauth_linking_idempotent :
  (forall E accessToken' refreshToken' profile w,
     store_invariant w ->
     store_invariant (fst (googleVerify E accessToken' refreshToken' profile w))) /\
  (forall E E' accessToken' accessToken'' refreshToken' refreshToken''
          profile profile' email' w,
     store_invariant w ->
     id profile <> EmptyString -> first_value (emails profile) = Some email' ->
     email' <> EmptyString ->
     id profile' = id profile -> first_value (emails profile') = Some email' ->
     let w1 := fst (googleVerify E accessToken' refreshToken' profile w) in
     exists u1,
       lookup_email email' (rows w1) = Some u1 /\
       snd (googleVerify E accessToken' refreshToken' profile w) = DoneUser (userData u1) /\
       links_for "google" (providers_or_empty u1)
       = [google_link E (id profile) accessToken' refreshToken'] /\
       let relinked :=
         set_oauthProviders u1
           (Some (retoken "google" accessToken'' refreshToken'' (expiry E')
                          (providers_or_empty u1))) in
       let u2 := fill_avatar (first_value (photos profile')) relinked in
       googleVerify E' accessToken'' refreshToken'' profile' w1
       = (mkWorld (replace_row u2 (rows w1))
                  (trace w1 ++ [FindOneByEmail email'; Save (userId u1)])
                  (console w1),
          DoneUser (userData u2)) /\
       lookup_email email' (replace_row u2 (rows w1)) = Some u2 /\
       providers_or_empty u2
       = retoken "google" accessToken'' refreshToken'' (expiry E') (providers_or_empty u1) /\
       links_for "google" (providers_or_empty u2)
       = [google_link E' (id profile) accessToken'' refreshToken''] /\
       (first_value (photos profile') = first_value (photos profile) -> u2 = relinked)).
Proof.
  split; [exact store_invariant_preserved|].
  intros E E' a a' r r' profile profile' e w Hinv Hid He Hne Hid' He' w1.
  set (u1 := resolved_user E a r profile e w).
  pose proof (resolved_stored E a r profile e Hid He Hne w) as Hstored.
  destruct (resolved_existing E a r profile e w) as [Hex Hav].
  assert (Hone : one_link_per_provider (providers_or_empty u1)).
  { apply resolved_one_link. intros u0 Hu0. apply Hinv.
    now apply (lookup_email_In e). }
  fold u1 in Hstored, Hex, Hav.
  assert (Hfind : find is_google (providers_or_empty u1)
                  = Some (google_link E (id profile) a r)).
  { unfold existingProvider, providers_or_empty in *.
    destruct (oauthProviders u1); [exact Hex | discriminate]. }
  exists u1. split; [exact Hstored|].
  split; [now apply googleVerify_done|].
  split; [now apply links_for_google_found|].
  intros relinked u2.
  assert (Hid2 : id profile' <> EmptyString) by now rewrite Hid'.
  pose proof (googleVerify_relogin_same_id E' a' r' profile' e w1 u1
                (google_link E (id profile) a r) Hid2 He' Hne Hstored Hex
                (eq_sym Hid') Hone) as Hsecond.
  assert (Hlinks : providers_or_empty u2
                   = retoken "google" a' r' (expiry E') (providers_or_empty u1)).
  { subst u2 relinked. unfold providers_or_empty at 1.
    now rewrite fill_avatar_providers. }
  assert (Hkey : userId u2 = userId u1 /\ email u2 = email u1).
  { subst u2 relinked. unfold fill_avatar. now destruct (_ && _). }
  split; [exact Hsecond|].
  split; [|split; [exact Hlinks | split]].
  - destruct (lookup_email_In _ _ _ Hstored) as [_ Hemail].
    apply lookup_email_replace_row with (u0 := u1);
      [exact Hstored | apply Hkey | now rewrite (proj2 Hkey)].
  - rewrite Hlinks. apply links_for_google_found.
    + unfold one_link_per_provider, retoken.
      rewrite map_map. erewrite map_ext; [exact Hone|].
      intros p. cbv beta. now destruct (String.eqb (provider p) "google").
    + unfold retoken.
      clear -Hfind. induction (providers_or_empty u1) as [|p l IH]; [discriminate|].
      simpl in *. unfold is_google in *.
      destruct (String.eqb (provider p) "google") eqn:Ep.
      * injection Hfind as ->. simpl. reflexivity.
      * simpl. rewrite Ep. auto.
  - intros Hphoto. subst u2 relinked. rewrite Hphoto.
    now rewrite fill_avatar_set_oauthProviders, Hav.
Qed.

Lemma oauth_linking_idempotent_witness :
  exists u1,
    lookup_email "a@x.com"
      (rows (fst (googleVerify env0 "at-1" None (profile_of "g123" "a@x.com") world0)))
    = Some u1 /\
    links_for "google" (providers_or_empty u1) = [google_link env0 "g123" "at-1" None] /\
    providers_or_empty
      (fill_avatar None
         (set_oauthProviders u1
            (Some (retoken "google" "at-2" (Some "rt-2") (expiry env1)
                           (providers_or_empty u1)))))
    = retoken "google" "at-2" (Some "rt-2") (expiry env1) (providers_or_empty u1) /\
    snd (googleVerify env1 "at-2" (Some "rt-2") (profile_of "g123" "a@x.com")
           (fst (googleVerify env0 "at-1" None (profile_of "g123" "a@x.com") world0)))
    = DoneUser (mkGoogleUser "u-1" "a@x.com" "alice" None USER
                  [mkOAuthProvider "google" "g123" "at-2" (Some "rt-2") 3609000] true).
Proof.
  destruct (proj2 oauth_linking_idempotent env0 env1 "at-1" "at-2" None (Some "rt-2")
              (profile_of "g123" "a@x.com") (profile_of "g123" "a@x.com") "a@x.com" world0)
    as (u1 & H1 & H2 & H3 & H4 & H5 & H6 & _).
  - intros u [<- | [<- | [<- | []]]]; vm_compute;
      repeat constructor; simpl; tauto.
  - discriminate.
  - reflexivity.
  - discriminate.
  - reflexivity.
  - reflexivity.
  - exists u1. repeat split; assumption.
Defined.

(** C5: when the user found by email already has a Google link whose
    stored id differs from the asserted one, the callback overwrites the
    stored id with the asserted one and replaces the link's access token,
    refresh token and expiry; the other links are untouched, the user still
    has exactly one Google link, and the mismatch is written to the
    console. *)
Theorem relogin_overwrites_providerId (E : Env) (accessToken' : string)
    (refreshToken' : option string) (profile : Profile) (email' : string)
    (w : World) (u0 : User) (g : OAuthProvider) :
  id profile <> EmptyString -> first_value (emails profile) = Some email' ->
  email' <> EmptyString ->
  lookup_email email' (rows w) = Some u0 ->
  one_link_per_provider (providers_or_empty u0) ->
  In g (providers_or_empty u0) -> provider g = "google" ->
  providerId g <> id profile ->
  let w' := fst (googleVerify E accessToken' refreshToken' profile w) in
  exists u1,
    lookup_email email' (rows w') = Some u1 /\
    providers_or_empty u1
    = map (fun p => if String.eqb (provider p) "google"
                    then mkOAuthProvider "google" (id profile) accessToken' refreshToken'
                                         (expiry E)
                    else p)
          (providers_or_empty u0) /\
    links_for "google" (providers_or_empty u1)
    = [mkOAuthProvider "google" (id profile) accessToken' refreshToken' (expiry E)] /\
    console w' = (console w ++ [mismatch_warning email' (providerId g) (id profile)])%list.
Proof.
  intros Hid He Hne Hfind Hone Hin Hg Hdiff w'.
  assert (Hex : existingProvider u0 = Some g).
  { pose proof (find_google_In _ g Hone Hin Hg) as H.
    unfold existingProvider, providers_or_empty in *.
    destruct (oauthProviders u0); [exact H | discriminate]. }
  set (u1 := resolved_user E accessToken' refreshToken' profile email' w).
  pose proof (resolved_stored E accessToken' refreshToken' profile email' Hid He Hne w)
    as Hstored.
  destruct (resolved_existing E accessToken' refreshToken' profile email' w) as [Hex1 _].
  assert (Hone1 : one_link_per_provider (providers_or_empty u1)).
  { apply resolved_one_link. intros u Hu. congruence. }
  fold u1 in Hstored, Hex1.
  exists u1. split; [exact Hstored|]. split; [|split].
  - subst u1. unfold resolved_user. rewrite Hfind, Hex. unfold relogin_user.
    unfold providers_or_empty at 1. rewrite fill_avatar_providers.
    cbn [oauthProviders set_oauthProviders].
    rewrite (assign_first_map _ _ Hone). apply map_ext. intros p.
    unfold is_google. destruct (String.eqb (provider p) "google") eqn:Ep; [|reflexivity].
    rewrite refresh_link_value. apply String.eqb_eq in Ep. now rewrite Ep.
  - apply links_for_google_found; [exact Hone1|].
    unfold existingProvider, providers_or_empty in *.
    destruct (oauthProviders u1); [exact Hex1 | discriminate].
  - subst w'.
    rewrite (googleVerify_valid E accessToken' refreshToken' profile email' Hid He Hne).
    cbv zeta. rewrite Hfind, Hex.
    apply String.eqb_neq in Hdiff. rewrite Hdiff. reflexivity.
Qed.

Lemma relogin_overwrites_providerId_witness :
  exists u1,
    lookup_email "b@x.com"
      (rows (fst (googleVerify env0 "at" (Some "rt") (profile_of "g456" "b@x.com") world0)))
    = Some u1 /\
    providers_or_empty u1
    = [mkOAuthProvider "google" "g456" "at" (Some "rt") (expiry env0)] /\
    links_for "google" (providers_or_empty u1)
    = [mkOAuthProvider "google" "g456" "at" (Some "rt") (expiry env0)] /\
    console (fst (googleVerify env0 "at" (Some "rt") (profile_of "g456" "b@x.com") world0))
    = [mismatch_warning "b@x.com" "g123" "g456"].
Proof.
  apply (relogin_overwrites_providerId env0 "at" (Some "rt") (profile_of "g456" "b@x.com")
           "b@x.com" world0 bob
           (mkOAuthProvider "google" "g123" "old-access" (Some "old-refresh") 1000)).
  - discriminate.
  - reflexivity.
  - discriminate.
  - reflexivity.
  - vm_compute. repeat constructor. simpl. tauto.
  - simpl. now left.
  - reflexivity.
  - discriminate.
Defined.

(** Which branches mark the email verified: creating the user and linking
    Google to an existing user do; logging in through an existing link
    leaves the stored flag as it is. *)
Lemma resolved_isEmailVerified (E : Env) (accessToken' : string)
    (refreshToken' : option string) (profile : Profile) (email' : string) (w : World) :
  isEmailVerified (resolved_user E accessToken' refreshToken' profile email' w)
  = match lookup_email email' (rows w) with
    | Some user =>
        match existingProvider user with
        | Some _ => isEmailVerified user
        | None => Some true
        end
    | None => Some true
    end.
Proof.
  unfold resolved_user.
  destruct (lookup_email email' (rows w)) as [user|]; [|reflexivity].
  destruct (existingProvider user); [|reflexivity].
  unfold relogin_user, fill_avatar. now destruct (_ && _).
Qed.

(** C6 at a failing input: a user with a Google link whose email is not
    marked verified logs in again with Google.  The login succeeds, and both
    the stored row and the projection handed to the caller still say that
    the email is not verified. *)
Theorem relogin_keeps_email_unverified :
  snd (googleVerify env0 "at" (Some "rt") (profile_of "g123" "b@x.com") world0)
  = DoneUser (mkGoogleUser "u-2" "b@x.com" "bob" None USER
                [mkOAuthProvider "google" "g123" "at" (Some "rt") 3605000] false) /\
  option_map isEmailVerified
    (lookup_email "b@x.com"
       (rows (fst (googleVerify env0 "at" (Some "rt") (profile_of "g123" "b@x.com") world0))))
  = Some (Some false).
Proof.
  split; reflexivity.
Qed.

(** C7, as stated, fails on the code: the projection handed to the caller
    holds the whole list of provider links, with the access and refresh
    tokens of every provider, here those stored for another provider next
    to the ones just received. *)
Lemma userData_exposes_tokens :
  snd (googleVerify env0 "g-access" (Some "g-refresh") (profile_of "g9" "c@x.com") world0)
  = DoneUser (mkGoogleUser "u-3" "c@x.com" "carol" (Some "https://x.com/c.png") ADMIN
                [mkOAuthProvider "facebook" "f77" "fb-access" (Some "fb-refresh") 2000;
                 mkOAuthProvider "google" "g9" "g-access" (Some "g-refresh") 3605000]
                true).
Proof.
  reflexivity.
Qed.

(** C7, amended: on success the value handed to the caller is the
    projection (userId, email, name, avatar, role, oauthProviders,
    isEmailVerified) of the user just persisted; its [oauthProviders] is the
    user's complete list of links, token material included, and holds the
    Google link with the access and refresh tokens of this login. *)
Theorem userData_projection (E : Env) (accessToken' : string)
    (refreshToken' : option string) (profile : Profile) (w : World) (d : GoogleUser) :
  snd (googleVerify E accessToken' refreshToken' profile w) = DoneUser d ->
  exists u,
    In u (rows (fst (googleVerify E accessToken' refreshToken' profile w))) /\
    gu_userId d = userId u /\ gu_email d = email u /\ gu_name d = name u /\
    gu_avatar d = avatar u /\ gu_role d = role u /\
    gu_oauthProviders d = providers_or_empty u /\
    gu_isEmailVerified d = (match isEmailVerified u with Some b => b | None => false end) /\
    In (mkOAuthProvider "google" (id profile) accessToken' refreshToken' (expiry E))
       (gu_oauthProviders d).
Proof.
  intros Hd.
  destruct (googleVerify_outcome E accessToken' refreshToken' profile w)
    as [(m & Hm) | (e & Hid & He & Hne & Hdone)].
  - rewrite Hm in Hd. discriminate.
  - rewrite Hdone in Hd. injection Hd as <-.
    set (u := resolved_user E accessToken' refreshToken' profile e w).
    exists u. split.
    + rewrite (googleVerify_rows E accessToken' refreshToken' profile e Hid He Hne).
      apply In_upsert.
    + repeat split.
      destruct (resolved_existing E accessToken' refreshToken' profile e w) as [Hex _].
      fold u in Hex. cbn [gu_oauthProviders userData].
      unfold existingProvider, providers_or_empty in *.
      destruct (oauthProviders u) as [l|]; [|discriminate].
      apply find_some in Hex. exact (proj1 Hex).
Qed.

Lemma userData_projection_witness :
  exists u,
    In u (rows (fst (googleVerify env0 "g-access" None (profile_of "g9" "c@x.com") world0))) /\
    userId u = "u-3" /\ email u = "c@x.com" /\ name u = "carol" /\
    avatar u = Some "https://x.com/c.png" /\ role u = ADMIN /\
    providers_or_empty u
    = [mkOAuthProvider "facebook" "f77" "fb-access" (Some "fb-refresh") 2000;
       mkOAuthProvider "google" "g9" "g-access" None 3605000] /\
    isEmailVerified u = Some true.
Proof.
  destruct (userData_projection env0 "g-access" None (profile_of "g9" "c@x.com") world0
              (mkGoogleUser "u-3" "c@x.com" "carol" (Some "https://x.com/c.png") ADMIN
                 [mkOAuthProvider "facebook" "f77" "fb-access" (Some "fb-refresh") 2000;
                  mkOAuthProvider "google" "g9" "g-access" None 3605000]
                 true) eq_refl)
    as (u & Hin & H1 & H2 & H3 & H4 & H5 & H6 & H7 & _).
  exists u. cbn in H1, H2, H3, H4, H5, H6, H7.
  repeat split; try (symmetry; assumption); try assumption.
  destruct (isEmailVerified u) as [[]|]; [reflexivity | discriminate | discriminate].
Defined.

(** ** The role guard *)

Lemma UserRole_of_string_includes (s : string) :
  UserRole_of_string s <> None <-> In s UserRole_values.
Proof.
  unfold UserRole_of_string, UserRole_values. simpl.
  destruct (String.eqb s "user") eqn:Eu; [apply String.eqb_eq in Eu|apply String.eqb_neq in Eu].
  - split; [intros _; now left | discriminate].
  - destruct (String.eqb s "admin") eqn:Ea;
      [apply String.eqb_eq in Ea|apply String.eqb_neq in Ea].
    + split; [intros _; right; now left | discriminate].
    + split; [congruence | intros [H | [H | []]]; congruence].
Qed.

Lemma UserRole_of_string_value (r : UserRole) :
  UserRole_of_string (UserRole_value r) = Some r.
Proof. now destruct r. Qed.

Lemma UserRole_value_truthy (r : UserRole) : Js.truthy (Some (UserRole_value r)) = true.
Proof. now destruct r. Qed.

(** C8: when the actor's id is the target id and the requested role is
    USER, the handler throws a DataInvalid error and leaves the world as it
    was: no row changes and the repository receives no call, not even the
    lookup of the target. *)
Theorem self_demotion_rejected (actor : AuthenticatedUser) (targetUserId role' : string)
    (w : World) :
  au_userId actor = targetUserId -> role' = UserRole_value USER ->
  updateUserRole (mkRoleRequest (Some actor) targetUserId (Some role')) w
  = (w, Throw (ApiError_create 400 "禁止將自己的角色降為 user" DATA_INVALID)) /\
  kind_of (ApiError_create 400 "禁止將自己的角色降為 user" DATA_INVALID) = DataInvalid /\
  trace (fst (updateUserRole (mkRoleRequest (Some actor) targetUserId (Some role')) w))
  = trace w.
Proof.
  intros <- ->.
  assert (E : updateUserRole
                (mkRoleRequest (Some actor) (au_userId actor) (Some (UserRole_value USER))) w
              = (w, Throw (ApiError_create 400 "禁止將自己的角色降為 user" DATA_INVALID))).
  { unfold updateUserRole. cbn [req_user body_role params_id].
    rewrite UserRole_value_truthy. cbn [negb].
    rewrite UserRole_of_string_value, !String.eqb_refl. reflexivity. }
  rewrite E. repeat split.
Qed.

Lemma self_demotion_rejected_witness :
  updateUserRole
    (mkRoleRequest (Some (mkAuthenticatedUser "u-3" "admin" "c@x.com")) "u-3" (Some "user"))
    world0
  = (world0, Throw (ApiError_create 400 "禁止將自己的角色降為 user" DATA_INVALID)) /\
  kind_of (ApiError_create 400 "禁止將自己的角色降為 user" DATA_INVALID) = DataInvalid /\
  trace (fst (updateUserRole
                (mkRoleRequest (Some (mkAuthenticatedUser "u-3" "admin" "c@x.com")) "u-3"
                               (Some "user"))
                world0))
  = trace world0.
Proof.
  apply (self_demotion_rejected (mkAuthenticatedUser "u-3" "admin" "c@x.com") "u-3" "user"
           world0); reflexivity.
Defined.

(** C9, as stated, fails on the code: the target exists and its role is
    the requested, valid one, but the actor is the target and the role is
    USER, so the handler throws DataInvalid instead of reporting the role as
    unchanged. *)
Lemma unchanged_role_counterexample :
  lookup_userId "u-1" (rows world0) = Some alice /\
  UserRole_value (role alice) = "user" /\
  updateUserRole
    (mkRoleRequest (Some (mkAuthenticatedUser "u-1" "user" "a@x.com")) "u-1" (Some "user"))
    world0
  = (world0, Throw (ApiError_create 400 "禁止將自己的角色降為 user" DATA_INVALID)).
Proof.
  repeat split.
Qed.

(** C9, amended: for every existing target whose current role is the
    requested one, unless the actor is the target and the requested role is
    USER, the handler answers 200 with the message that the role is
    unchanged; the repository receives the lookup of the target and no
    write, and the table is the one before the call. *)
Theorem unchanged_role_no_write (actor : AuthenticatedUser) (targetUserId role' : string)
    (w : World) (user : User) :
  lookup_userId targetUserId (rows w) = Some user ->
  UserRole_value (role user) = role' ->
  ~ (au_userId actor = targetUserId /\ role' = UserRole_value USER) ->
  updateUserRole (mkRoleRequest (Some actor) targetUserId (Some role')) w
  = (mkWorld (rows w) (trace w ++ [FindOneByUserId targetUserId]) (console w),
     Json 200 role_unchanged_message (mkRoleData (userId user) (role user))) /\
  rows (fst (updateUserRole (mkRoleRequest (Some actor) targetUserId (Some role')) w))
  = rows w /\
  filter is_write
    (trace (fst (updateUserRole (mkRoleRequest (Some actor) targetUserId (Some role')) w)))
  = filter is_write (trace w).
Proof.
  intros Hfind <- Hnot.
  enough (E : updateUserRole
                (mkRoleRequest (Some actor) targetUserId (Some (UserRole_value (role user)))) w
              = (mkWorld (rows w) (trace w ++ [FindOneByUserId targetUserId]) (console w),
                 Json 200 role_unchanged_message (mkRoleData (userId user) (role user)))).
  { rewrite E. cbn [fst rows trace]. repeat split.
    rewrite filter_app. cbn. apply app_nil_r. }
  unfold updateUserRole. cbn [req_user body_role params_id].
  rewrite UserRole_value_truthy. cbn [negb].
  rewrite UserRole_of_string_value.
  assert (Hguard : String.eqb (au_userId actor) targetUserId
                   && String.eqb (UserRole_value (role user)) (UserRole_value USER) = false).
  { destruct (String.eqb (au_userId actor) targetUserId) eqn:E1; [|reflexivity].
    destruct (String.eqb (UserRole_value (role user)) (UserRole_value USER)) eqn:E2;
      [|reflexivity].
    apply String.eqb_eq in E1, E2. exfalso. apply Hnot. now split. }
  rewrite Hguard. unfold findOneByUserId. rewrite Hfind.
  now rewrite String.eqb_refl.
Qed.

Lemma unchanged_role_no_write_witness :
  updateUserRole
    (mkRoleRequest (Some (mkAuthenticatedUser "u-3" "admin" "c@x.com")) "u-3" (Some "admin"))
    world0
  = (mkWorld (rows world0) (trace world0 ++ [FindOneByUserId "u-3"]) (console world0),
     Json 200 role_unchanged_message (mkRoleData (userId carol) (role carol))) /\
  rows (fst (updateUserRole
               (mkRoleRequest (Some (mkAuthenticatedUser "u-3" "admin" "c@x.com")) "u-3"
                              (Some "admin"))
               world0))
  = rows world0 /\
  filter is_write
    (trace (fst (updateUserRole
                   (mkRoleRequest (Some (mkAuthenticatedUser "u-3" "admin" "c@x.com")) "u-3"
                                  (Some "admin"))
                   world0)))
  = filter is_write (trace world0).
Proof.
  apply (unchanged_role_no_write (mkAuthenticatedUser "u-3" "admin" "c@x.com") "u-3" "admin"
           world0 carol).
  - reflexivity.
  - reflexivity.
  - intros [_ H]. discriminate.
Defined.

(** ** Further properties of the four components *)

(** X1: verification answers false, and does not consult bcrypt, when no
    hash is stored (the field is absent or empty). *)
Theorem comparePassword_without_hash (B : Bcrypt) (u : User) (candidate : string) :
  comparePassword B (set_password u None) candidate = false /\
  comparePassword B (set_password u (Some EmptyString)) candidate = false.
Proof.
  split; reflexivity.
Qed.

(** X2: the email gate lets a request through exactly when an identity is
    bound to it whose email is verified; every other request fails with the
    EmailNotVerified kind. *)
Theorem requireVerifiedEmail_gate (user : option ReqUser) :
  (requireVerifiedEmail user = None
   <-> exists u, user = Some u /\ ru_isEmailVerified u = Some true) /\
  (forall e, requireVerifiedEmail user = Some e -> kind_of e = EmailNotVerified).
Proof.
  unfold requireVerifiedEmail. destruct user as [u|].
  - destruct (ru_isEmailVerified u) as [[]|] eqn:E; split.
    + split; [intros _; now exists u | reflexivity].
    + discriminate.
    + split; [discriminate | intros (u' & [= <-] & H); congruence].
    + now intros e [= <-].
    + split; [discriminate | intros (u' & [= <-] & H); congruence].
    + now intros e [= <-].
  - split.
    + split; [discriminate | now intros (u' & H & _)].
    + now intros e [= <-].
Qed.

(** X3: a token that verifies and names a user binds that user's
    projection (userId, role, email, name, isEmailVerified) to the request
    after one lookup; when the user no longer exists the request fails with
    the NotFound kind. *)
Theorem isAuthenticated_binds_identity (J : Jwt) (env_JWT_SECRET : option string)
    (token id' : string) (w : World) :
  token <> EmptyString -> no_blank token -> id' <> EmptyString ->
  verify J token (jwt_secret env_JWT_SECRET) = JwtReturns (mkTokenPayload (Some id')) ->
  isAuthenticated J env_JWT_SECRET (Some ("Bearer " ++ token)) w
  = (log_op (FindOneByUserId id') w,
     match lookup_userId id' (rows w) with
     | Some user =>
         NextOk (mkReqUser (userId user) (role user) (email user) (name user)
                           (isEmailVerified user))
     | None => NextError (ThrownApi (ApiError_notFound "用戶"))
     end) /\
  kind_of (ApiError_notFound "用戶") = NotFound.
Proof.
  intros Hne Hnb Hid Hv. split; [|reflexivity].
  assert (Hpart : bearer_token_part ("Bearer " ++ token) token).
  { exists EmptyString. repeat split; [|exact Hnb | now left].
    f_equal. clear. induction token as [|c t IH]; simpl; [reflexivity | now rewrite <- IH]. }
  rewrite (isAuthenticated_with_token J env_JWT_SECRET _ token w Hne Hpart), Hv.
  cbn [tp_userId]. apply String.eqb_neq in Hid. rewrite Hid.
  now destruct (lookup_userId id' (rows w)).
Qed.

Lemma isAuthenticated_binds_identity_witness :
  isAuthenticated (jwt_for "abc.def.ghi" "u-3") None (Some "Bearer abc.def.ghi") world0
  = (log_op (FindOneByUserId "u-3") world0,
     NextOk (mkReqUser "u-3" ADMIN "c@x.com" "carol" (Some true))) /\
  kind_of (ApiError_notFound "用戶") = NotFound.
Proof.
  apply (isAuthenticated_binds_identity (jwt_for "abc.def.ghi" "u-3") None
           "abc.def.ghi" "u-3" world0).
  - discriminate.
  - intros b r H.
    repeat (destruct b as [|? b]; [discriminate | simpl in H; injection H as _ H]).
    destruct b; discriminate.
  - discriminate.
  - reflexivity.
Defined.

(** X4: linking Google for the first time, to a new or to an existing
    account, marks the email verified, in the stored row and in the value
    handed to the caller. *)
Theorem first_link_marks_email_verified (E : Env) (accessToken' : string)
    (refreshToken' : option string) (profile : Profile) (email' : string) (w : World) :
  id profile <> EmptyString -> first_value (emails profile) = Some email' ->
  email' <> EmptyString ->
  match lookup_email email' (rows w) with
  | Some user => existingProvider user = None
  | None => True
  end ->
  exists u d,
    lookup_email email' (rows (fst (googleVerify E accessToken' refreshToken' profile w)))
    = Some u /\
    snd (googleVerify E accessToken' refreshToken' profile w) = DoneUser d /\
    isEmailVerified u = Some true /\ gu_isEmailVerified d = true.
Proof.
  intros Hid He Hne Hfirst.
  exists (resolved_user E accessToken' refreshToken' profile email' w),
         (userData (resolved_user E accessToken' refreshToken' profile email' w)).
  assert (Hv : isEmailVerified (resolved_user E accessToken' refreshToken' profile email' w)
               = Some true).
  { rewrite resolved_isEmailVerified.
    destruct (lookup_email email' (rows w)) as [user|]; [|reflexivity].
    now rewrite Hfirst. }
  repeat split.
  - now apply resolved_stored.
  - now apply googleVerify_done.
  - exact Hv.
  - cbn [gu_isEmailVerified userData]. now rewrite Hv.
Qed.

Lemma first_link_marks_email_verified_witness :
  exists u d,
    lookup_email "a@x.com"
      (rows (fst (googleVerify env0 "at" None (profile_of "g1" "a@x.com") world0)))
    = Some u /\
    snd (googleVerify env0 "at" None (profile_of "g1" "a@x.com") world0) = DoneUser d /\
    isEmailVerified u = Some true /\ gu_isEmailVerified d = true.
Proof.
  apply (first_link_marks_email_verified env0 "at" None (profile_of "g1" "a@x.com")
           "a@x.com" world0).
  - discriminate.
  - reflexivity.
  - discriminate.
  - reflexivity.
Defined.

(** X5: for an existing user, the row the Google callback stores and the
    user it hands to [done] keep an avatar the user already has, and when
    the user had no Google link their links are the former ones, unchanged
    and in order, followed by the new Google link. *)
Theorem login_keeps_avatar_and_other_links (E : Env) (accessToken' : string)
    (refreshToken' : option string) (profile : Profile) (email' : string)
    (w : World) (user : User) :
  id profile <> EmptyString -> first_value (emails profile) = Some email' ->
  email' <> EmptyString ->
  lookup_email email' (rows w) = Some user ->
  exists user',
    lookup_email email' (rows (fst (googleVerify E accessToken' refreshToken' profile w)))
    = Some user' /\
    snd (googleVerify E accessToken' refreshToken' profile w) = DoneUser (userData user') /\
    (Js.truthy (avatar user) = true -> avatar user' = avatar user) /\
    (existingProvider user = None ->
     providers_or_empty user'
     = (providers_or_empty user
        ++ [mkOAuthProvider "google" (id profile) accessToken' refreshToken' (expiry E)])%list).
Proof.
  intros Hid He Hne Hfind.
  exists (resolved_user E accessToken' refreshToken' profile email' w).
  split; [now apply resolved_stored|].
  split; [now apply googleVerify_done|].
  unfold resolved_user. rewrite Hfind. split.
  - intros Hav.
    destruct (existingProvider user);
      unfold relogin_user, linked_user, fill_avatar; cbn [avatar set_oauthProviders];
      rewrite Hav, andb_false_r; reflexivity.
  - intros ->. unfold linked_user, providers_or_empty at 1.
    cbn [oauthProviders set_isEmailVerified]. now rewrite fill_avatar_providers.
Qed.

Lemma login_keeps_avatar_and_other_links_witness :
  exists user',
    lookup_email "c@x.com"
      (rows (fst (googleVerify env0 "at" None
                    (mkProfile "g9" None (Some ["c@x.com"]) (Some ["https://g/p.png"]))
                    world0)))
    = Some user' /\
    avatar user' = Some "https://x.com/c.png" /\
    providers_or_empty user'
    = [mkOAuthProvider "facebook" "f77" "fb-access" (Some "fb-refresh") 2000;
       mkOAuthProvider "google" "g9" "at" None (expiry env0)].
Proof.
  destruct (login_keeps_avatar_and_other_links env0 "at" None
              (mkProfile "g9" None (Some ["c@x.com"]) (Some ["https://g/p.png"]))
              "c@x.com" world0 carol)
    as (user' & H1 & _ & H3 & H4); try discriminate; try reflexivity.
  exists user'. split; [exact H1 | split; [now apply H3 | now apply H4]].
Defined.

(** X6: a request without a role, with an empty role, or with a role that
    is not a value of [UserRole] is rejected with the DataInvalid kind and
    leaves the world as it was. *)
Theorem invalid_role_rejected (actor : AuthenticatedUser) (targetUserId : string)
    (role' : option string) (w : World) :
  (forall r, role' = Some r -> ~ In r UserRole_values) ->
  exists e,
    updateUserRole (mkRoleRequest (Some actor) targetUserId role') w = (w, Throw e) /\
    kind_of e = DataInvalid.
Proof.
  intros Hbad. unfold updateUserRole. cbn [req_user body_role params_id].
  destruct role' as [r|]; [|eexists; split; reflexivity].
  destruct (Js.truthy (Some r)); cbn [negb]; [|eexists; split; reflexivity].
  destruct (UserRole_of_string r) eqn:Er; [|eexists; split; reflexivity].
  exfalso. apply (Hbad r eq_refl). apply UserRole_of_string_includes. congruence.
Qed.

Lemma invalid_role_rejected_witness :
  exists e,
    updateUserRole
      (mkRoleRequest (Some (mkAuthenticatedUser "u-3" "admin" "c@x.com")) "u-1"
                     (Some "superuser"))
      world0
    = (world0, Throw e) /\
    kind_of e = DataInvalid.
Proof.
  apply (invalid_role_rejected (mkAuthenticatedUser "u-3" "admin" "c@x.com") "u-1"
           (Some "superuser") world0).
  intros r [= <-] [H | [H | []]]; discriminate.
Defined.

(** X7: otherwise, a request for a target that does not exist fails with
    the NotFound kind without a write; and a request for a role that differs
    from the target's stores the new role with one write and answers that
    the role was updated. *)
Theorem role_change_persisted (actor : AuthenticatedUser) (targetUserId : string)
    (newRole : UserRole) (w : World) :
  ~ (au_userId actor = targetUserId /\ newRole = USER) ->
  updateUserRole (mkRoleRequest (Some actor) targetUserId (Some (UserRole_value newRole))) w
  = match lookup_userId targetUserId (rows w) with
    | None =>
        (mkWorld (rows w) (trace w ++ [FindOneByUserId targetUserId]) (console w),
         Throw (ApiError_notFound "用戶"))
    | Some user =>
        if String.eqb (UserRole_value (role user)) (UserRole_value newRole)
        then (mkWorld (rows w) (trace w ++ [FindOneByUserId targetUserId]) (console w),
              Json 200 role_unchanged_message (mkRoleData (userId user) (role user)))
        else (mkWorld (upsert (set_role user newRole) (rows w))
                      (trace w ++ [FindOneByUserId targetUserId; Save (userId user)])
                      (console w),
              Json 200 role_updated_message (mkRoleData (userId user) newRole))
    end.
Proof.
  intros Hnot. unfold updateUserRole. cbn [req_user body_role params_id].
  rewrite UserRole_value_truthy. cbn [negb].
  rewrite UserRole_of_string_value.
  assert (Hguard : String.eqb (au_userId actor) targetUserId
                   && String.eqb (UserRole_value newRole) (UserRole_value USER) = false).
  { destruct (String.eqb (au_userId actor) targetUserId) eqn:E1; [|reflexivity].
    destruct newRole; [|reflexivity].
    apply String.eqb_eq in E1. exfalso. apply Hnot. now split. }
  rewrite Hguard. unfold findOneByUserId.
  destruct (lookup_userId targetUserId (rows w)) as [user|]; [|reflexivity].
  destruct (String.eqb (UserRole_value (role user)) (UserRole_value newRole));
    [reflexivity|].
  unfold save, log_op. cbn [rows trace console set_role userId role].
  now rewrite <- app_assoc.
Qed.

Lemma role_change_persisted_witness :
  updateUserRole
    (mkRoleRequest (Some (mkAuthenticatedUser "u-3" "admin" "c@x.com")) "u-1" (Some "admin"))
    world0
  = (mkWorld [set_role alice ADMIN; bob; carol] [FindOneByUserId "u-1"; Save "u-1"] [],
     Json 200 role_updated_message (mkRoleData "u-1" ADMIN)).
Proof.
  apply (role_change_persisted (mkAuthenticatedUser "u-3" "admin" "c@x.com") "u-1" ADMIN
           world0).
  intros [H _]. discriminate.
Defined.

(** ** Gender labels *)

Lemma existsb_eqb_In (s : string) (l : list string) :
  existsb (String.eqb s) l = true <-> In s l.
Proof.
  rewrite existsb_exists. split.
  - intros (x & Hin & Hx). apply String.eqb_eq in Hx. now subst.
  - intros Hin. exists s. split; [exact Hin | apply String.eqb_refl].
Qed.

Lemma Gender_of_string_Some (s : string) (g : Gender) :
  Gender_of_string s = Some g <-> s = Gender_value g.
Proof.
  unfold Gender_of_string. split.
  - destruct (String.eqb s "male") eqn:E1; [apply String.eqb_eq in E1; now intros [= <-]|].
    destruct (String.eqb s "female") eqn:E2; [apply String.eqb_eq in E2; now intros [= <-]|].
    destruct (String.eqb s "other") eqn:E3; [apply String.eqb_eq in E3; now intros [= <-]|].
    discriminate.
  - intros ->. now destruct g.
Qed.

Lemma chineseToGenderMap_own_Some (s : string) (g : Gender) :
  chineseToGenderMap_own s = Some g <-> s = genderToChineseMap g.
Proof.
  unfold chineseToGenderMap_own. split.
  - destruct (String.eqb s "男") eqn:E1; [apply String.eqb_eq in E1; now intros [= <-]|].
    destruct (String.eqb s "女") eqn:E2; [apply String.eqb_eq in E2; now intros [= <-]|].
    destruct (String.eqb s "其他") eqn:E3; [apply String.eqb_eq in E3; now intros [= <-]|].
    discriminate.
  - intros ->. now destruct g.
Qed.

Lemma gender_names_spec (s : string) :
  In s gender_names <-> exists g, s = Gender_value g \/ s = genderToChineseMap g.
Proof.
  unfold gender_names. simpl. split.
  - intros [<- | [<- | [<- | [<- | [<- | [<- | []]]]]]];
      [exists MALE | exists FEMALE | exists OTHER | exists MALE | exists FEMALE | exists OTHER];
      simpl; tauto.
  - intros ([] & [-> | ->]); simpl; tauto.
Qed.

(** X8: the two translations are inverse to each other on the three
    genders, English values pass through [toEnglishGender] unchanged,
    [null] and [undefined] are kept, and a string is taken for a gender
    only if it is that gender's Chinese label or English value. *)
Theorem gender_round_trip :
  (forall g, toEnglishGender (toChineseGender (JsValue g)) = JsValue (IsGender g)) /\
  (forall g, toEnglishGender (JsValue (Gender_value g)) = JsValue (IsGender g)) /\
  toEnglishGender (toChineseGender JsNull) = JsNull /\
  toEnglishGender (toChineseGender JsUndefined) = JsUndefined /\
  (forall s g,
     toEnglishGender (JsValue s) = JsValue (IsGender g) ->
     toChineseGender (JsValue g) = JsValue s \/ s = Gender_value g).
Proof.
  split; [|split; [|split; [|split]]]; try reflexivity.
  - now intros [].
  - now intros [].
  - intros s g. unfold toEnglishGender.
    destruct (Gender_of_string s) as [g'|] eqn:Eg.
    + intros [= <-]. right. now apply Gender_of_string_Some.
    + unfold chineseToGenderMap.
      destruct (chineseToGenderMap_own s) as [g'|] eqn:Eo.
      * intros [= <-]. left. apply chineseToGenderMap_own_Some in Eo. subst s.
        now destruct g'.
      * destruct (existsb (String.eqb s) Object_prototype_names); discriminate.
Qed.

(** The strings [toEnglishGender] rejects. *)
Lemma toEnglishGender_rejects (s : string) :
  toEnglishGender (JsValue s) = JsUndefined
  <-> ~ In s gender_names /\ ~ In s Object_prototype_names.
Proof.
  assert (Hnames : In s gender_names <->
                   Gender_of_string s <> None \/ chineseToGenderMap_own s <> None).
  { rewrite gender_names_spec. split.
    - intros (g & [-> | ->]).
      + left. now rewrite (proj2 (Gender_of_string_Some _ g) eq_refl).
      + right. now rewrite (proj2 (chineseToGenderMap_own_Some _ g) eq_refl).
    - intros [H | H].
      + destruct (Gender_of_string s) as [g|] eqn:E; [|contradiction].
        exists g. left. now apply Gender_of_string_Some.
      + destruct (chineseToGenderMap_own s) as [g|] eqn:E; [|contradiction].
        exists g. right. now apply chineseToGenderMap_own_Some. }
  unfold toEnglishGender, chineseToGenderMap. rewrite Hnames.
  destruct (Gender_of_string s) as [g|];
    [split; [discriminate | intros [H _]; elim H; left; discriminate]|].
  destruct (chineseToGenderMap_own s) as [g|];
    [split; [discriminate | intros [H _]; elim H; right; discriminate]|].
  destruct (existsb (String.eqb s) Object_prototype_names) eqn:Ex.
  - apply existsb_eqb_In in Ex. split; [discriminate | tauto].
  - split; [|reflexivity]. intros _. split; [intros [H | H]; now elim H|].
    intros Hin. apply existsb_eqb_In in Hin. congruence.
Qed.

(** X9: [toEnglishGender] answers [undefined] for exactly the strings that
    are neither one of the six gender names nor the name of a member every
    object inherits; for such a name ([constructor], [toString], ...) it
    returns the inherited member instead of [undefined]. *)
Theorem toEnglishGender_undefined_iff (s : string) :
  (toEnglishGender (JsValue s) = JsUndefined
   <-> ~ In s gender_names /\ ~ In s Object_prototype_names) /\
  (In s Object_prototype_names -> toEnglishGender (JsValue s) = JsValue (IsInherited s)).
Proof.
  split; [apply toEnglishGender_rejects|].
  intros Hin. simpl in Hin.
  repeat (destruct Hin as [<- | Hin]; [reflexivity|]). contradiction.
Qed.

(** ** The profile handlers *)

Lemma lookup_userId_replace_row (u : User) (l : list User) :
  existsb (fun r => String.eqb (userId r) (userId u)) l = true ->
  lookup_userId (userId u) (replace_row u l) = Some u.
Proof.
  unfold lookup_userId. induction l as [|r l IH]; simpl; [discriminate|].
  destruct (String.eqb (userId r) (userId u)) eqn:E; simpl.
  - intros _. now rewrite String.eqb_refl.
  - intros H. rewrite E. auto.
Qed.

Lemma lookup_userId_app_new (u : User) (l : list User) :
  existsb (fun r => String.eqb (userId r) (userId u)) l = false ->
  lookup_userId (userId u) (l ++ [u]) = Some u.
Proof.
  unfold lookup_userId. induction l as [|r l IH]; simpl.
  - intros _. now rewrite String.eqb_refl.
  - destruct (String.eqb (userId r) (userId u)); simpl; [discriminate | auto].
Qed.

(** Writing a row and reading it back by its key. *)
Lemma lookup_userId_upsert (u : User) (l : list User) :
  lookup_userId (userId u) (upsert u l) = Some u.
Proof.
  unfold upsert. destruct (existsb _ l) eqn:E.
  - now apply lookup_userId_replace_row.
  - now apply lookup_userId_app_new.
Qed.

Lemma filter_is_write_lookup (t : list DbOp) (i : string) :
  filter is_write (t ++ [FindOneByUserId i]) = filter is_write t.
Proof. rewrite filter_app. simpl. apply app_nil_r. Qed.

Lemma check_birthday_kind (R : Runtime) (b : BirthdayInput) (e : ApiError) :
  check_birthday R b = Some e -> kind_of e = DataInvalid.
Proof.
  destruct b as [| |s|[t|]]; simpl; try discriminate.
  - destruct (String.eqb (trim R s) EmptyString); [now intros [= <-]|].
    destruct (negb (date_parses R s)); [now intros [= <-] | discriminate].
  - now intros [= <-].
Qed.

Lemma check_gender_kind (R : Runtime) (g : GenderInput) (e : ApiError) :
  check_gender R g = Some e -> kind_of e = DataInvalid.
Proof.
  destruct g as [| |s|]; cbn [check_gender]; try discriminate.
  - destruct (String.eqb (trim R s) EmptyString); [now intros [= <-]|].
    destruct (toEnglishGender (JsValue s)); try discriminate. now intros [= <-].
  - now intros [= <-].
Qed.

(** The row a profile request writes, if it writes one. *)
Lemma updateUserProfile_rows (R : Runtime) (req : ProfileRequest) (w : World) :
  rows (fst (updateUserProfile R req w)) = rows w \/
  exists user user',
    In user (rows w) /\ userId user' = userId user /\ email user' = email user /\
    rows (fst (updateUserProfile R req w)) = upsert user' (rows w).
Proof.
  unfold updateUserProfile.
  destruct (pr_user req) as [au|]; [|now left].
  unfold findOneByUserId.
  destruct (lookup_userId (au_userId au) (rows w)) as [user|] eqn:Hfind; [|now left].
  destruct (check_birthday R (pr_birthday req)); [now left|].
  destruct (check_gender R (pr_gender req)); [now left|].
  right. destruct (lookup_userId_In _ _ _ Hfind) as [Hin _].
  exists user, (match pr_name req with Some name' => set_name user name' | None => user end).
  repeat split; try assumption; try now destruct (pr_name req).
  unfold findOneSelected. now destruct (option_map _ _).
Qed.

(** X10: [updateUserProfile] writes nothing when it fails (no identity,
    unknown user, invalid birthday or gender: the table and the console are
    as before and no save was issued), and when it succeeds the only column
    it can have changed is the name: the row written is the row read with
    the requested name, whatever birthday, gender, phone or address the
    request carries, and the answer is the selection of that row. *)
Theorem updateUserProfile_effect (R : Runtime) (req : ProfileRequest) (w : World) :
  match updateUserProfile R req w with
  | (w', ProfileThrow e) =>
      rows w' = rows w /\ console w' = console w /\
      filter is_write (trace w') = filter is_write (trace w) /\
      In (kind_of e) [Unauthorized; NotFound; DataInvalid]
  | (w', ProfileJson status message selected) =>
      exists authenticatedUser user,
        pr_user req = Some authenticatedUser /\
        lookup_userId (au_userId authenticatedUser) (rows w) = Some user /\
        let user' := match pr_name req with
                     | Some name' => set_name user name'
                     | None => user
                     end in
        rows w' = upsert user' (rows w) /\
        trace w' = (trace w ++ [FindOneByUserId (userId user); Save (userId user);
                                FindOneByUserId (userId user)])%list /\
        console w' = console w /\
        status = 200 /\ selected = select_profile user'
  end.
Proof.
  unfold updateUserProfile.
  destruct (pr_user req) as [au|]; [|simpl; tauto].
  unfold findOneByUserId.
  destruct (lookup_userId (au_userId au) (rows w)) as [user|] eqn:Hfind.
  2:{ cbn [rows trace console log_op]. rewrite filter_is_write_lookup. simpl. tauto. }
  destruct (lookup_userId_In _ _ _ Hfind) as [_ Hid].
  destruct (check_birthday R (pr_birthday req)) as [e|] eqn:Eb.
  { cbn [rows trace console log_op]. rewrite filter_is_write_lookup.
    rewrite (check_birthday_kind _ _ _ Eb). simpl. tauto. }
  destruct (check_gender R (pr_gender req)) as [e|] eqn:Eg.
  { cbn [rows trace console log_op]. rewrite filter_is_write_lookup.
    rewrite (check_gender_kind _ _ _ Eg). simpl. tauto. }
  set (user' := match pr_name req with
                | Some name' => set_name user name'
                | None => user
                end).
  assert (Hid' : userId user' = au_userId au).
  { subst user'. now destruct (pr_name req). }
  unfold findOneSelected, save, log_op. cbn [rows trace console].
  rewrite <- Hid', lookup_userId_upsert. cbn [option_map].
  exists au, user. repeat split; try assumption.
  rewrite Hid', Hid, <- !app_assoc. reflexivity.
Qed.

(** X11: the gender check of [updateUserProfile] lets pass exactly an
    absent gender, [null], and a string that does not trim to the empty
    string and is one of the six gender names or the name of an inherited
    member such as [constructor]; each rejection has the DataInvalid
    kind. *)
Theorem gender_validation (R : Runtime) (rawGender : GenderInput) :
  (check_gender R rawGender = None
   <-> match rawGender with
       | GenderUndefined | GenderNull => True
       | GenderString s =>
           trim R s <> EmptyString /\
           (In s gender_names \/ In s Object_prototype_names)
       | GenderOther => False
       end) /\
  (forall e, check_gender R rawGender = Some e -> kind_of e = DataInvalid).
Proof.
  split; [|intros e; apply check_gender_kind].
  destruct rawGender as [| |s|]; cbn [check_gender]; try tauto.
  - destruct (String.eqb (trim R s) EmptyString) eqn:Et.
    + apply String.eqb_eq in Et. split; [discriminate | tauto].
    + apply String.eqb_neq in Et.
      assert (Hdec : In s gender_names \/ In s Object_prototype_names \/
                     toEnglishGender (JsValue s) = JsUndefined).
      { destruct (in_dec string_dec s gender_names) as [H|H]; [now left|].
        destruct (in_dec string_dec s Object_prototype_names) as [H'|H']; [right; now left|].
        right; right. now apply toEnglishGender_rejects. }
      pose proof (proj1 (toEnglishGender_rejects s)) as Hundef.
      destruct (toEnglishGender (JsValue s)) eqn:Ee.
      * split; [intros _|reflexivity]. split; [exact Et|].
        destruct Hdec as [H | [H | H]]; [now left | now right | discriminate].
      * split; [discriminate|]. intros [_ H]. exfalso.
        specialize (Hundef eq_refl). tauto.
      * split; [intros _|reflexivity]. split; [exact Et|].
        destruct Hdec as [H | [H | H]]; [now left | now right | discriminate].
  - split; [discriminate | tauto].
Qed.

(** X12: [getUserProfile] only reads: the table and the console are as
    before and no save is issued.  It answers 200 with the selection of the
    caller's row, whose [oauthProviders] is the stored list of links with
    their tokens; without an identity it fails with Unauthorized, and for an
    identity without a row with NotFound. *)
Theorem getUserProfile_read_only (authenticatedUser : option AuthenticatedUser)
    (w : World) :
  rows (fst (getUserProfile authenticatedUser w)) = rows w /\
  console (fst (getUserProfile authenticatedUser w)) = console w /\
  filter is_write (trace (fst (getUserProfile authenticatedUser w)))
  = filter is_write (trace w) /\
  match snd (getUserProfile authenticatedUser w) with
  | ProfileJson status _ selected =>
      status = 200 /\
      exists au user,
        authenticatedUser = Some au /\
        lookup_userId (au_userId au) (rows w) = Some user /\
        selected = select_profile user /\
        pd_oauthProviders selected = oauthProviders user
  | ProfileThrow e =>
      (authenticatedUser = None /\ kind_of e = Unauthorized) \/
      (exists au, authenticatedUser = Some au /\
                  lookup_userId (au_userId au) (rows w) = None /\
                  kind_of e = NotFound)
  end.
Proof.
  unfold getUserProfile. destruct authenticatedUser as [au|].
  - unfold findOneSelected.
    destruct (lookup_userId (au_userId au) (rows w)) as [user|] eqn:Hfind;
      cbn [option_map fst snd rows trace console log_op];
      rewrite filter_is_write_lookup; repeat split.
    + exists au, user. repeat split. exact Hfind.
    + right. exists au. repeat split. exact Hfind.
  - simpl. repeat split. now left.
Qed.

(** ** The keys of the table *)

Lemma map_userId_replace_row (u : User) (l : list User) :
  map userId (replace_row u l) = map userId l.
Proof.
  unfold replace_row. rewrite map_map. apply map_ext. intros r.
  destruct (String.eqb (userId r) (userId u)) eqn:E; [|reflexivity].
  apply String.eqb_eq in E. now symmetry.
Qed.

Lemma replace_row_absent (u : User) (l : list User) :
  ~ In (userId u) (map userId l) -> replace_row u l = l.
Proof.
  intros H. unfold replace_row. rewrite <- (map_id l) at 2.
  apply map_ext_in. intros r Hr.
  destruct (String.eqb (userId r) (userId u)) eqn:E; [|reflexivity].
  apply String.eqb_eq in E. exfalso. apply H. rewrite <- E. now apply in_map.
Qed.

Lemma In_replace_row_inv (u r : User) (l : list User) :
  In r (replace_row u l) -> r = u \/ In r l.
Proof.
  unfold replace_row. rewrite in_map_iff. intros (x & Hx & Hin).
  destruct (String.eqb (userId x) (userId u)); [now left | right; now subst].
Qed.

Lemma NoDup_email_replace_row (u : User) (l : list User) :
  NoDup (map userId l) -> NoDup (map email l) ->
  (forall r, In r l -> email r = email u -> userId r = userId u) ->
  NoDup (map email (replace_row u l)).
Proof.
  induction l as [|r l IH]; intros Hid Hem Hcond; [constructor|].
  simpl in Hid, Hem. apply NoDup_cons_iff in Hid, Hem.
  destruct Hid as [Hid1 Hid], Hem as [Hem1 Hem].
  simpl. destruct (String.eqb (userId r) (userId u)) eqn:E.
  - apply String.eqb_eq in E.
    fold (replace_row u l). rewrite replace_row_absent by now rewrite <- E.
    simpl. constructor; [|exact Hem].
    intros Hin. apply in_map_iff in Hin. destruct Hin as (r' & He & Hr').
    apply Hid1. rewrite E, <- (Hcond r' (or_intror Hr') He). now apply in_map.
  - apply String.eqb_neq in E. fold (replace_row u l). simpl. constructor.
    + intros Hin. apply in_map_iff in Hin. destruct Hin as (x & He & Hx).
      apply In_replace_row_inv in Hx. destruct Hx as [-> | Hx].
      * apply E. apply Hcond; [now left | now symmetry].
      * apply Hem1. rewrite <- He. now apply in_map.
    + apply IH; auto. intros r' Hr'. apply Hcond. now right.
Qed.

(** An upsert keeps both keys, when no other row holds the email written. *)
Lemma upsert_keys_unique (u : User) (l : list User) :
  NoDup (map userId l) -> NoDup (map email l) ->
  (forall r, In r l -> email r = email u -> userId r = userId u) ->
  NoDup (map userId (upsert u l)) /\ NoDup (map email (upsert u l)).
Proof.
  intros Hid Hem Hcond. unfold upsert.
  destruct (existsb (fun r => String.eqb (userId r) (userId u)) l) eqn:Ex.
  - split; [now rewrite map_userId_replace_row | now apply NoDup_email_replace_row].
  - assert (Hfresh : forall r, In r l -> userId r <> userId u).
    { intros r Hr Heq. apply Bool.not_true_iff_false in Ex. apply Ex.
      apply existsb_exists. exists r. split; [exact Hr|]. rewrite Heq.
      apply String.eqb_refl. }
    rewrite !map_app. simpl. split.
    + apply NoDup_app; [exact Hid | constructor; [intros [] | constructor] |].
      intros x Hx [<- | []]. apply in_map_iff in Hx.
      destruct Hx as (r & Hr & Hin). now apply (Hfresh r).
    + apply NoDup_app; [exact Hem | constructor; [intros [] | constructor] |].
      intros x Hx [<- | []]. apply in_map_iff in Hx.
      destruct Hx as (r & Hr & Hin). apply (Hfresh r Hin). now apply Hcond.
Qed.

Lemma NoDup_email_same (l : list User) (a b : User) :
  NoDup (map email l) -> In a l -> In b l -> email a = email b -> a = b.
Proof.
  induction l as [|r l IH]; [contradiction|].
  simpl. intros Hnd Ha Hb He. apply NoDup_cons_iff in Hnd. destruct Hnd as [Hr Hnd].
  destruct Ha as [-> | Ha], Hb as [-> | Hb]; auto.
  - exfalso. apply Hr. rewrite He. now apply in_map.
  - exfalso. apply Hr. rewrite <- He. now apply in_map.
Qed.

(** The row a role request writes, if it writes one. *)
Lemma updateUserRole_rows (req : RoleRequest) (w : World) :
  rows (fst (updateUserRole req w)) = rows w \/
  exists user r,
    lookup_userId (params_id req) (rows w) = Some user /\
    rows (fst (updateUserRole req w)) = upsert (set_role user r) (rows w).
Proof.
  unfold updateUserRole.
  destruct (req_user req); [|now left].
  destruct (negb (Js.truthy (body_role req))); [now left|].
  destruct (body_role req) as [role'|]; [|now left].
  destruct (UserRole_of_string role') as [r|]; [|now left].
  destruct (_ && _); [now left|].
  unfold findOneByUserId.
  destruct (lookup_userId (params_id req) (rows w)) as [user|] eqn:Hfind; [|now left].
  destruct (String.eqb (UserRole_value (role user)) role'); [now left|].
  right. exists user, r. split; reflexivity.
Qed.

(** The uniqueness of the keys, by itself. *)
Lemma handlers_keep_keys_unique :
  (forall E accessToken' refreshToken' profile w,
     keys_unique w ->
     keys_unique (fst (googleVerify E accessToken' refreshToken' profile w))) /\
  (forall req w, keys_unique w -> keys_unique (fst (updateUserRole req w))) /\
  (forall R req w, keys_unique w -> keys_unique (fst (updateUserProfile R req w))).
Proof.
  assert (Hsame : forall (w : World) (user u : User),
             keys_unique w -> In user (rows w) ->
             userId u = userId user -> email u = email user ->
             NoDup (map userId (upsert u (rows w))) /\
             NoDup (map email (upsert u (rows w)))).
  { intros w user u [Hid Hem] Hin Hi He. apply upsert_keys_unique; auto.
    intros r Hr Her. rewrite Hi. f_equal.
    apply (NoDup_email_same (rows w)); auto. congruence. }
  split; [|split].
  - intros E a r profile w Hk.
    destruct (googleVerify_outcome E a r profile w)
      as [(m & ->) | (e & Hid & He & Hne & _)]; [exact Hk|].
    unfold keys_unique. rewrite (googleVerify_rows E a r profile e Hid He Hne).
    destruct (resolved_key E a r profile e w) as [Hemail Hkey].
    destruct (lookup_email e (rows w)) as [u0|] eqn:Hfind.
    + destruct (lookup_email_In _ _ _ Hfind) as [Hin Hu0].
      apply (Hsame w u0); auto. congruence.
    + destruct Hk as [Hi Hem]. apply upsert_keys_unique; auto.
      intros r0 Hr0 Her0. exfalso.
      unfold lookup_email in Hfind. apply (find_none _ _ Hfind) in Hr0.
      rewrite Her0, Hemail, String.eqb_refl in Hr0. discriminate.
  - intros req w Hk. unfold keys_unique.
    destruct (updateUserRole_rows req w) as [-> | (user & r & Hfind & ->)]; [exact Hk|].
    destruct (lookup_userId_In _ _ _ Hfind) as [Hin _].
    now apply (Hsame w user).
  - intros R req w Hk. unfold keys_unique.
    destruct (updateUserProfile_rows R req w)
      as [-> | (user & user' & Hin & Hi & He & ->)]; [exact Hk|].
    now apply (Hsame w user).
Qed.

Lemma NoDup_userId_same (l : list User) (a b : User) :
  NoDup (map userId l) -> In a l -> In b l -> userId a = userId b -> a = b.
Proof.
  induction l as [|r l IH]; [contradiction|].
  simpl. intros Hnd Ha Hb He. apply NoDup_cons_iff in Hnd. destruct Hnd as [Hr Hnd].
  destruct Ha as [-> | Ha], Hb as [-> | Hb]; auto.
  - exfalso. apply Hr. rewrite He. now apply in_map.
  - exfalso. apply Hr. rewrite <- He. now apply in_map.
Qed.

(** Writing over a row a row with the same keys keeps the keys of the
    table, pair by pair. *)
Lemma key_pairs_upsert_same (u u0 : User) (l : list User) :
  NoDup (map userId l) -> In u0 l -> userId u = userId u0 -> email u = email u0 ->
  key_pairs (upsert u l) = key_pairs l.
Proof.
  intros Hnd Hin Hi He. rewrite (upsert_existing u u0 l Hin Hi).
  unfold key_pairs, replace_row. rewrite map_map. apply map_ext_in. intros r Hr.
  destruct (String.eqb (userId r) (userId u)) eqn:E; [|reflexivity].
  apply String.eqb_eq in E.
  assert (r = u0) by (apply (NoDup_userId_same l); auto; congruence).
  subst r. now rewrite Hi, He.
Qed.

(** X13: no handler reassigns, drops or duplicates a key of the table.
    When no user id and no email occurs twice, the pairs (user id, email)
    of the rows after [updateUserRole] or [updateUserProfile] are those
    before the call, row by row; after the Google callback, given that the
    id generated for a new row is not in use, they are those before the
    call, followed by at most one new pair with the generated id; and in
    each case no user id and no email occurs twice afterwards. *)
Theorem keys_unique_preserved :
  (forall E accessToken' refreshToken' profile w,
     keys_unique w -> ~ In (uuid E) (map userId (rows w)) ->
     keys_unique (fst (googleVerify E accessToken' refreshToken' profile w)) /\
     (key_pairs (rows (fst (googleVerify E accessToken' refreshToken' profile w)))
      = key_pairs (rows w) \/
      exists email',
        lookup_email email' (rows w) = None /\
        key_pairs (rows (fst (googleVerify E accessToken' refreshToken' profile w)))
        = (key_pairs (rows w) ++ [(uuid E, email')])%list)) /\
  (forall req w,
     keys_unique w ->
     keys_unique (fst (updateUserRole req w)) /\
     key_pairs (rows (fst (updateUserRole req w))) = key_pairs (rows w)) /\
  (forall R req w,
     keys_unique w ->
     keys_unique (fst (updateUserProfile R req w)) /\
     key_pairs (rows (fst (updateUserProfile R req w))) = key_pairs (rows w)).
Proof.
  destruct handlers_keep_keys_unique as (Hg & Hr & Hp).
  split; [|split].
  - intros E a r profile w Hk Hfresh. split; [now apply Hg|].
    destruct (googleVerify_outcome E a r profile w)
      as [(m & ->) | (e & Hid & He & Hne & _)]; [now left|].
    rewrite (googleVerify_rows E a r profile e Hid He Hne).
    destruct (resolved_key E a r profile e w) as [Hemail Hkey].
    destruct (lookup_email e (rows w)) as [u0|] eqn:Hfind.
    + left. destruct (lookup_email_In _ _ _ Hfind) as [Hin Hu0].
      apply (key_pairs_upsert_same _ u0); [apply Hk | exact Hin | exact Hkey | congruence].
    + right. exists e. split; [exact Hfind|].
      unfold resolved_user. rewrite Hfind. unfold created_user, upsert. cbn [userId].
      assert (Hex : existsb (fun r0 => String.eqb (userId r0) (uuid E)) (rows w) = false).
      { apply Bool.not_true_iff_false. intros H. apply existsb_exists in H.
        destruct H as (r0 & Hr0 & Heq). apply String.eqb_eq in Heq. apply Hfresh.
        rewrite <- Heq. now apply in_map. }
      rewrite Hex. unfold key_pairs. now rewrite map_app.
  - intros req w Hk. split; [now apply Hr|].
    destruct (updateUserRole_rows req w) as [-> | (user & x & Hfind & ->)]; [reflexivity|].
    destruct (lookup_userId_In _ _ _ Hfind) as [Hin _].
    now apply (key_pairs_upsert_same _ user); [apply Hk | | |].
  - intros R req w Hk. split; [now apply Hp|].
    destruct (updateUserProfile_rows R req w)
      as [-> | (user & user' & Hin & Hi & He & ->)]; [reflexivity|].
    now apply (key_pairs_upsert_same _ user); [apply Hk | | |].
Qed.

Lemma keys_unique_preserved_witness :
  key_pairs (rows (fst (googleVerify env0 "at" None (profile_of "g1" "new@x.com") world0)))
  = [("u-1", "a@x.com"); ("u-2", "b@x.com"); ("u-3", "c@x.com"); ("u-new", "new@x.com")] /\
  key_pairs
    (rows (fst (updateUserRole
                  (mkRoleRequest (Some (mkAuthenticatedUser "u-3" "admin" "c@x.com")) "u-1"
                                 (Some "admin"))
                  world0)))
  = [("u-1", "a@x.com"); ("u-2", "b@x.com"); ("u-3", "c@x.com")].
Proof.
  assert (H0 : keys_unique world0).
  { split; vm_compute; repeat constructor; simpl; intuition discriminate. }
  destruct keys_unique_preserved as (Hg & Hr & _).
  split.
  - destruct (Hg env0 "at" None (profile_of "g1" "new@x.com") world0 H0) as [_ [H | H]].
    + simpl. intuition discriminate.
    + vm_compute in H. discriminate.
    + reflexivity.
  - now rewrite (proj2 (Hr (mkRoleRequest (Some (mkAuthenticatedUser "u-3" "admin" "c@x.com"))
                                         "u-1" (Some "admin")) world0 H0)).
Defined.

(** ** Composition of the handlers *)

Lemma UserRole_value_inj (a b : UserRole) :
  String.eqb (UserRole_value a) (UserRole_value b) = true -> a = b.
Proof. now destruct a, b. Qed.

Lemma set_role_same (u : User) : set_role u (role u) = u.
Proof. now destruct u. Qed.

(** [updateUserRole] on a valid role that is no self-demotion. *)
Lemma updateUserRole_proceeds (actor : AuthenticatedUser) (targetUserId : string)
    (newRole : UserRole) (w : World) :
  ~ (au_userId actor = targetUserId /\ newRole = USER) ->
  updateUserRole (mkRoleRequest (Some actor) targetUserId (Some (UserRole_value newRole))) w
  = match lookup_userId targetUserId (rows w) with
    | None => (log_op (FindOneByUserId targetUserId) w, Throw (ApiError_notFound "用戶"))
    | Some user =>
        if String.eqb (UserRole_value (role user)) (UserRole_value newRole)
        then (log_op (FindOneByUserId targetUserId) w,
              Json 200 role_unchanged_message (mkRoleData (userId user) (role user)))
        else (save (set_role user newRole) (log_op (FindOneByUserId targetUserId) w),
              Json 200 role_updated_message (mkRoleData (userId user) newRole))
    end.
Proof.
  intros Hnot. unfold updateUserRole. cbn [req_user body_role params_id].
  rewrite UserRole_value_truthy. cbn [negb].
  rewrite UserRole_of_string_value.
  assert (Hguard : String.eqb (au_userId actor) targetUserId
                   && String.eqb (UserRole_value newRole) (UserRole_value USER) = false).
  { destruct (String.eqb (au_userId actor) targetUserId) eqn:E1; [|reflexivity].
    destruct newRole; [|reflexivity].
    apply String.eqb_eq in E1. exfalso. apply Hnot. now split. }
  rewrite Hguard. unfold findOneByUserId.
  destruct (lookup_userId targetUserId (rows w)) as [user|]; [|reflexivity].
  now destruct (String.eqb (UserRole_value (role user)) (UserRole_value newRole)).
Qed.

Lemma bearer_token_part_whole (token : string) :
  no_blank token -> bearer_token_part ("Bearer " ++ token) token.
Proof.
  intros Hnb. exists EmptyString. repeat split; [|exact Hnb | now left].
  f_equal. induction token as [|c t IH]; simpl; [reflexivity|].
  rewrite <- IH; [reflexivity|]. intros b r E. apply (Hnb (String c b) r).
  simpl. now rewrite E.
Qed.

(** X14: a role change is read back.  After a valid request that is no
    self-demotion, for an existing target, the table holds the target with
    the requested role; the same request again answers that the role is
    unchanged and writes nothing; and a later request authenticated as the
    target is bound to the requested role. *)
Theorem role_change_round_trip (actor : AuthenticatedUser) (targetUserId : string)
    (newRole : UserRole) (w : World) (user : User) :
  ~ (au_userId actor = targetUserId /\ newRole = USER) ->
  lookup_userId targetUserId (rows w) = Some user ->
  let req := mkRoleRequest (Some actor) targetUserId (Some (UserRole_value newRole)) in
  let w1 := fst (updateUserRole req w) in
  lookup_userId targetUserId (rows w1) = Some (set_role user newRole) /\
  updateUserRole req w1
  = (log_op (FindOneByUserId targetUserId) w1,
     Json 200 role_unchanged_message (mkRoleData (userId user) newRole)) /\
  (forall J env_JWT_SECRET token,
     token <> EmptyString -> no_blank token -> targetUserId <> EmptyString ->
     verify J token (jwt_secret env_JWT_SECRET)
     = JwtReturns (mkTokenPayload (Some targetUserId)) ->
     snd (isAuthenticated J env_JWT_SECRET (Some ("Bearer " ++ token)) w1)
     = NextOk (mkReqUser (userId user) newRole (email user) (name user)
                         (isEmailVerified user))).
Proof.
  intros Hnot Hfind req w1.
  destruct (lookup_userId_In _ _ _ Hfind) as [_ Hid].
  assert (Hstored : lookup_userId targetUserId (rows w1) = Some (set_role user newRole)).
  { subst w1 req. rewrite (updateUserRole_proceeds actor targetUserId newRole w Hnot), Hfind.
    destruct (String.eqb (UserRole_value (role user)) (UserRole_value newRole)) eqn:E.
    - apply UserRole_value_inj in E. subst newRole. cbn [fst log_op rows].
      now rewrite set_role_same.
    - cbn [fst save log_op rows]. rewrite <- Hid.
      apply (lookup_userId_upsert (set_role user newRole)). }
  split; [exact Hstored | split].
  - subst req. rewrite (updateUserRole_proceeds actor targetUserId newRole w1 Hnot), Hstored.
    cbn [role set_role userId]. now rewrite String.eqb_refl.
  - intros J env token Hne Hnb Htarget Hv.
    rewrite (isAuthenticated_with_token J env _ token w1 Hne (bearer_token_part_whole _ Hnb)).
    rewrite Hv. cbn [tp_userId]. apply String.eqb_neq in Htarget. rewrite Htarget, Hstored.
    reflexivity.
Qed.

Lemma role_change_round_trip_witness :
  lookup_userId "u-1"
    (rows (fst (updateUserRole
                  (mkRoleRequest (Some (mkAuthenticatedUser "u-3" "admin" "c@x.com")) "u-1"
                                 (Some "admin"))
                  world0)))
  = Some (set_role alice ADMIN) /\
  snd (isAuthenticated (jwt_for "tok" "u-1") None (Some "Bearer tok")
         (fst (updateUserRole
                 (mkRoleRequest (Some (mkAuthenticatedUser "u-3" "admin" "c@x.com")) "u-1"
                                (Some "admin"))
                 world0)))
  = NextOk (mkReqUser "u-1" ADMIN "a@x.com" "alice" (Some false)).
Proof.
  destruct (role_change_round_trip (mkAuthenticatedUser "u-3" "admin" "c@x.com") "u-1" ADMIN
              world0 alice) as (H1 & _ & H3).
  - intros [H _]. discriminate.
  - reflexivity.
  - split; [exact H1|].
    apply (H3 (jwt_for "tok" "u-1") None "tok").
    + discriminate.
    + intros b r H.
      repeat (destruct b as [|? b]; [discriminate | simpl in H; injection H as _ H]).
      destruct b; discriminate.
    + discriminate.
    + reflexivity.
Defined.

(** X15: authentication only reads.  [isAuthenticated] never changes the
    table or the console and never issues a save; and a request it rejects
    as Unauthorized or AuthTokenInvalid has not reached the repository at
    all: the world is the one before the call. *)
Theorem isAuthenticated_read_only (J : Jwt) (env_JWT_SECRET : option string)
    (authorization : option string) (w : World) :
  rows (fst (isAuthenticated J env_JWT_SECRET authorization w)) = rows w /\
  console (fst (isAuthenticated J env_JWT_SECRET authorization w)) = console w /\
  filter is_write (trace (fst (isAuthenticated J env_JWT_SECRET authorization w)))
  = filter is_write (trace w) /\
  (next_kind (snd (isAuthenticated J env_JWT_SECRET authorization w)) = Some Unauthorized \/
   next_kind (snd (isAuthenticated J env_JWT_SECRET authorization w)) = Some AuthTokenInvalid
   -> fst (isAuthenticated J env_JWT_SECRET authorization w) = w).
Proof.
  unfold isAuthenticated, isAuthenticated_try.
  destruct authorization as [authHeader|]; [|simpl; tauto].
  destruct (negb (Js.truthy (Some authHeader)) || negb (Js.startsWith "Bearer " authHeader));
    [simpl; tauto|].
  destruct (Js.index (Js.split " " authHeader) 1) as [tok|]; [|simpl; tauto].
  destruct (negb (Js.truthy (Some tok))); [simpl; tauto|].
  destruct (verify J tok (jwt_secret env_JWT_SECRET)) as [e | decoded];
    [destruct e; simpl; tauto|].
  destruct (tp_userId decoded) as [id'|]; [|simpl; tauto].
  destruct (negb (Js.truthy (Some id'))); [simpl; tauto|].
  unfold findOneByUserId.
  destruct (lookup_userId id' (rows w));
    cbn [fst snd rows trace console log_op isAuthenticated_catch next_kind kind_of];
    rewrite filter_is_write_lookup; repeat split; intros [H | H]; discriminate.
Qed.

(** X16: a profile without an id, or without a first email, or with an
    empty one, makes the Google callback call [done] with an error before
    it reaches the repository: the world is the one before the call (no
    lookup, no write, no line on the console); the missing id is reported
    first, the missing email otherwise. *)
Theorem googleVerify_rejects_incomplete_profile (E : Env) (accessToken' : string)
    (refreshToken' : option string) (profile : Profile) (w : World) :
  id profile = EmptyString \/ first_value (emails profile) = None \/
  first_value (emails profile) = Some EmptyString ->
  googleVerify E accessToken' refreshToken' profile w
  = (w, DoneError (if String.eqb (id profile) EmptyString
                   then "Google profile ID not found"
                   else "Google profile email not found")).
Proof.
  intros H. unfold googleVerify. cbn [Js.truthy].
  destruct (String.eqb (id profile) EmptyString) eqn:Eid; [reflexivity|].
  cbn [negb]. destruct H as [H | [H | H]].
  - rewrite H in Eid. discriminate.
  - now rewrite H.
  - now rewrite H.
Qed.

Lemma googleVerify_rejects_incomplete_profile_witness :
  googleVerify env0 "at" None (mkProfile "g1" (Some "Name") (Some []) None) world0
  = (world0, DoneError "Google profile email not found").
Proof.
  apply (googleVerify_rejects_incomplete_profile env0 "at" None
           (mkProfile "g1" (Some "Name") (Some []) None) world0).
  right. now left.
Defined.

Lemma split_head_of (sep : ascii) (s : string) :
  exists piece pieces tail,
    Js.split sep s = piece :: pieces /\ s = piece ++ tail /\
    free_of sep piece /\ (tail = EmptyString \/ exists r, tail = String sep r).
Proof.
  induction s as [|c s IH].
  - exists EmptyString, [], EmptyString. repeat split.
    + intros [|x b] r; discriminate.
    + now left.
  - simpl. destruct (Ascii.eqb c sep) eqn:Ec.
    + apply Ascii.eqb_eq in Ec. subst c.
      exists EmptyString, (Js.split sep s), (String sep s). repeat split.
      * intros [|x b] r; discriminate.
      * right. now exists s.
    + destruct IH as (piece & pieces & tail & Hs & Hcat & Hfree & Htail).
      rewrite Hs. exists (String c piece), pieces, tail. repeat split.
      * simpl. now rewrite <- Hcat.
      * intros [|x b] r E'; simpl in E'; injection E' as Ex Er.
        -- subst c. now rewrite Ascii.eqb_refl in Ec.
        -- now apply (Hfree b r).
      * exact Htail.
Qed.

(** X17: a login under an email the table does not hold creates one row
    and touches no other.  The new user has the generated id, the role
    USER, a verified email, no password, the profile's photo as avatar and
    the Google link as its only link; its name is the profile's display name
    or, when that is missing or empty, the text of the email before the
    first [@]. *)
Theorem new_email_creates_user (E : Env) (accessToken' : string)
    (refreshToken' : option string) (profile : Profile) (email' : string) (w : World) :
  id profile <> EmptyString -> first_value (emails profile) = Some email' ->
  email' <> EmptyString ->
  lookup_email email' (rows w) = None ->
  ~ In (uuid E) (map userId (rows w)) ->
  exists name',
    rows (fst (googleVerify E accessToken' refreshToken' profile w))
    = (rows w ++ [mkUser (uuid E) email' None name' USER (first_value (photos profile))
                         (Some true)
                         (Some [mkOAuthProvider "google" (id profile) accessToken'
                                                refreshToken' (expiry E)])])%list /\
    (Js.truthy (displayName profile) = true -> displayName profile = Some name') /\
    (Js.truthy (displayName profile) = false ->
     exists tail,
       email' = name' ++ tail /\ free_of "@" name' /\
       (tail = EmptyString \/ exists r, tail = String "@" r)).
Proof.
  intros Hid He Hne Hnone Hfresh.
  exists (default_name profile email').
  rewrite (googleVerify_rows E accessToken' refreshToken' profile email' Hid He Hne).
  unfold resolved_user. rewrite Hnone. unfold created_user, google_link, upsert.
  cbn [userId].
  assert (Hex : existsb (fun r => String.eqb (userId r) (uuid E)) (rows w) = false).
  { apply Bool.not_true_iff_false. intros H. apply existsb_exists in H.
    destruct H as (r & Hr & Heq). apply String.eqb_eq in Heq. apply Hfresh.
    rewrite <- Heq. now apply in_map. }
  rewrite Hex. split; [reflexivity | split].
  - unfold default_name, Js.or_else. intros Ht. rewrite Ht.
    destruct (displayName profile); [reflexivity | discriminate].
  - unfold default_name, Js.or_else. intros Ht. rewrite Ht.
    destruct (split_head_of "@" email') as (piece & pieces & tail & Hs & Hcat & Hfree & Htail).
    rewrite Hs. cbn. now exists tail.
Qed.

Lemma new_email_creates_user_witness :
  exists name',
    rows (fst (googleVerify env0 "at" None
                 (mkProfile "g5" None (Some ["dana.k@x.com"]) None) world0))
    = (rows world0 ++ [mkUser "u-new" "dana.k@x.com" None name' USER None (Some true)
                              (Some [mkOAuthProvider "google" "g5" "at" None
                                                     (expiry env0)])])%list /\
    (Js.truthy None = true -> @None string = Some name') /\
    (Js.truthy None = false ->
     exists tail,
       "dana.k@x.com" = name' ++ tail /\ free_of "@" name' /\
       (tail = EmptyString \/ exists r, tail = String "@" r)).
Proof.
  apply (new_email_creates_user env0 "at" None
           (mkProfile "g5" None (Some ["dana.k@x.com"]) None) "dana.k@x.com" world0).
  - discriminate.
  - reflexivity.
  - discriminate.
  - reflexivity.
  - simpl. intuition discriminate.
Defined.

(** X18: a user who has just been created by, or linked through, a Google
    login passes the email gate on the next authenticated request: one
    lookup binds the stored user, and [requireVerifiedEmail] lets it
    through. *)
Theorem first_link_passes_email_gate (E : Env) (accessToken' : string)
    (refreshToken' : option string) (profile : Profile) (email' : string) (w : World)
    (J : Jwt) (env_JWT_SECRET : option string) (token : string) :
  id profile <> EmptyString -> first_value (emails profile) = Some email' ->
  email' <> EmptyString ->
  match lookup_email email' (rows w) with
  | Some user => existingProvider user = None
  | None => True
  end ->
  let w1 := fst (googleVerify E accessToken' refreshToken' profile w) in
  exists u,
    lookup_email email' (rows w1) = Some u /\
    (userId u <> EmptyString -> token <> EmptyString -> no_blank token ->
     verify J token (jwt_secret env_JWT_SECRET)
     = JwtReturns (mkTokenPayload (Some (userId u))) ->
     exists bound,
       isAuthenticated J env_JWT_SECRET (Some ("Bearer " ++ token)) w1
       = (log_op (FindOneByUserId (userId u)) w1, NextOk bound) /\
       ru_userId bound = userId u /\ ru_email bound = email' /\
       requireVerifiedEmail (Some bound) = None).
Proof.
  intros Hid He Hne Hfirst w1.
  set (u := resolved_user E accessToken' refreshToken' profile email' w).
  exists u. split; [now apply resolved_stored|].
  intros Hu Htok Hnb Hv.
  assert (Hstored : lookup_userId (userId u) (rows w1) = Some u).
  { subst w1. rewrite (googleVerify_rows E accessToken' refreshToken' profile email' Hid He Hne).
    apply lookup_userId_upsert. }
  assert (Hverified : isEmailVerified u = Some true).
  { subst u. rewrite resolved_isEmailVerified.
    destruct (lookup_email email' (rows w)) as [user|]; [|reflexivity].
    now rewrite Hfirst. }
  rewrite (isAuthenticated_with_token J env_JWT_SECRET _ token w1 Htok
             (bearer_token_part_whole _ Hnb)).
  rewrite Hv. cbn [tp_userId]. apply String.eqb_neq in Hu. rewrite Hu, Hstored.
  eexists. split; [reflexivity|]. cbn [ru_userId ru_email].
  split; [reflexivity | split].
  - apply (resolved_key E accessToken' refreshToken' profile email' w).
  - unfold requireVerifiedEmail. cbn [ru_isEmailVerified]. now rewrite Hverified.
Qed.

Lemma first_link_passes_email_gate_witness :
  exists u,
    lookup_email "a@x.com"
      (rows (fst (googleVerify env0 "at" None (profile_of "g1" "a@x.com") world0)))
    = Some u /\
    exists bound,
      isAuthenticated (jwt_for "tok" "u-1") None (Some "Bearer tok")
        (fst (googleVerify env0 "at" None (profile_of "g1" "a@x.com") world0))
      = (log_op (FindOneByUserId "u-1")
           (fst (googleVerify env0 "at" None (profile_of "g1" "a@x.com") world0)),
         NextOk bound) /\
      requireVerifiedEmail (Some bound) = None.
Proof.
  destruct (first_link_passes_email_gate env0 "at" None (profile_of "g1" "a@x.com")
              "a@x.com" world0 (jwt_for "tok" "u-1") None "tok")
    as (u & Hu & Hgate); try discriminate; try reflexivity.
  exists u. split; [exact Hu|].
  assert (Hid : userId u = "u-1") by (vm_compute in Hu; now injection Hu as <-).
  rewrite Hid in Hgate.
  destruct Hgate as (bound & Hb & _ & _ & Hr).
  - discriminate.
  - discriminate.
  - intros b r H.
    repeat (destruct b as [|? b]; [discriminate | simpl in H; injection H as _ H]).
    destruct b; discriminate.
  - reflexivity.
  - exists bound. split; assumption.
Defined.

(** ** Verification and reset codes *)

Lemma number_to_string_digit (n : nat) :
  n < 10 -> exists c, number_to_string n = String c EmptyString /\ is_digit c = true.
Proof.
  intros H.
  do 10 (destruct n as [|n]; [eexists; split; reflexivity|]).
  lia.
Qed.

Lemma six_digit_code_shape (draw : nat -> nat) :
  (forall i, i < 6 -> draw i < 10) ->
  String.length (six_digit_code draw) = 6 /\
  Forall (fun c => is_digit c = true) (list_ascii_of_string (six_digit_code draw)).
Proof.
  intros H. unfold six_digit_code. cbn [seq map String.concat].
  destruct (number_to_string_digit (draw 0)) as (c0 & -> & H0); [apply H; lia|].
  destruct (number_to_string_digit (draw 1)) as (c1 & -> & H1); [apply H; lia|].
  destruct (number_to_string_digit (draw 2)) as (c2 & -> & H2); [apply H; lia|].
  destruct (number_to_string_digit (draw 3)) as (c3 & -> & H3); [apply H; lia|].
  destruct (number_to_string_digit (draw 4)) as (c4 & -> & H4); [apply H; lia|].
  destruct (number_to_string_digit (draw 5)) as (c5 & -> & H5); [apply H; lia|].
  split; [reflexivity|]. cbn. repeat constructor; assumption.
Qed.

(** X19: when every draw is a digit, as [Math.floor(Math.random() * 10)]
    is, the code of [createVerificationToken] and of
    [createPasswordResetToken] is six decimal digits; it is stored with an
    expiry ten minutes after the call, the returned [token] is the empty
    string, and each method leaves the other's code and expiry as they
    were. *)
Theorem codes_are_six_digits (draw : nat -> nat) (now' : Z) (c : UserCodes) :
  (forall i, i < 6 -> draw i < 10) ->
  let v := createVerificationToken draw now' c in
  let p := createPasswordResetToken draw now' c in
  String.length (tc_code (snd v)) = 6 /\
  Forall (fun ch => is_digit ch = true) (list_ascii_of_string (tc_code (snd v))) /\
  tc_token (snd v) = EmptyString /\
  verificationToken (fst v) = Some (tc_code (snd v)) /\
  verificationTokenExpires (fst v) = Some (now' + 600000)%Z /\
  passwordResetToken (fst v) = passwordResetToken c /\
  passwordResetExpires (fst v) = passwordResetExpires c /\
  String.length (tc_code (snd p)) = 6 /\
  Forall (fun ch => is_digit ch = true) (list_ascii_of_string (tc_code (snd p))) /\
  tc_token (snd p) = EmptyString /\
  passwordResetToken (fst p) = Some (tc_code (snd p)) /\
  passwordResetExpires (fst p) = Some (now' + 600000)%Z /\
  verificationToken (fst p) = verificationToken c /\
  verificationTokenExpires (fst p) = verificationTokenExpires c.
Proof.
  intros H v p. destruct (six_digit_code_shape draw H) as [Hlen Hdig].
  subst v p. unfold createVerificationToken, createPasswordResetToken.
  cbn [fst snd tc_code tc_token verificationToken verificationTokenExpires
       passwordResetToken passwordResetExpires].
  repeat split; assumption.
Qed.

Lemma codes_are_six_digits_witness :
  tc_code (snd (createVerificationToken (fun i => (7 * i + 3) mod 10) 1000 no_codes))
  = "307418" /\
  String.length
    (tc_code (snd (createVerificationToken (fun i => (7 * i + 3) mod 10) 1000 no_codes))) = 6 /\
  verificationTokenExpires
    (fst (createVerificationToken (fun i => (7 * i + 3) mod 10) 1000 no_codes))
  = Some 601000%Z.
Proof.
  destruct (codes_are_six_digits (fun i => (7 * i + 3) mod 10) 1000 no_codes)
    as (H1 & _ & _ & _ & H5 & _).
  - intros i _. apply Nat.mod_upper_bound. discriminate.
  - split; [reflexivity | split; [exact H1 | exact H5]].
Defined.

(** ** The error-handling middleware *)

(** X20: the error middleware answers with the error's status, 500 when
    it has none, and a body marked failed.  The message is a fixed friendly
    text for an error without a code that is named
    [EntityPropertyNotFoundError] or [ValidationError], and otherwise the
    error's own message or the default one, whatever the status; the stack
    is part of the body only in the development environment; and once the
    headers are sent the error is handed on unanswered. *)
Theorem errorHandler_response (env_NODE_ENV : option string) (err : Err) :
  errorHandler env_NODE_ENV err true = PassedOn err /\
  errorHandler env_NODE_ENV err false
  = Responded
      (match err_status err with
       | Some s => if Z.eqb s 0 then 500%Z else s
       | None => 500%Z
       end)
      (mkErrorBody "failed"
         (if negb (Js.truthy (err_code err)) && name_is err "EntityPropertyNotFoundError"
          then "操作失敗，請稍後再試"
          else if negb (Js.truthy (err_code err)) && name_is err "ValidationError"
          then "提交的數據格式不正確"
          else Js.or_else (err_message err) "系統發生錯誤")
         (if isDev env_NODE_ENV then err_stack err else None)) /\
  (env_NODE_ENV <> Some "development" ->
   exists status message,
     errorHandler env_NODE_ENV err false
     = Responded status (mkErrorBody "failed" message None)).
Proof.
  assert (Hmsg : snd (classify err)
                 = if negb (Js.truthy (err_code err))
                      && name_is err "EntityPropertyNotFoundError"
                   then "操作失敗，請稍後再試"
                   else if negb (Js.truthy (err_code err)) && name_is err "ValidationError"
                   then "提交的數據格式不正確"
                   else Js.or_else (err_message err) "系統發生錯誤").
  { unfold classify.
    assert (Hcode : Js.truthy (Some (Js.or_else (err_code err) EmptyString))
                    = Js.truthy (err_code err)).
    { unfold Js.or_else. destruct (Js.truthy (err_code err)) eqn:E; [|reflexivity].
      now destruct (err_code err). }
    rewrite Hcode. destruct (Js.truthy (err_code err)); cbn [negb andb]; [reflexivity|].
    destruct (name_is err "EntityPropertyNotFoundError"); [reflexivity|].
    destruct (name_is err "ValidationError"); [reflexivity|].
    repeat (match goal with |- context [if ?b then _ else _] => destruct b end);
      reflexivity. }
  split; [reflexivity | split].
  - unfold errorHandler. rewrite Hmsg. reflexivity.
  - intros Henv. unfold errorHandler.
    assert (Hdev : isDev env_NODE_ENV = false).
    { unfold isDev. destruct env_NODE_ENV as [v|]; [|reflexivity].
      destruct (String.eqb v "development") eqn:E; [|reflexivity].
      apply String.eqb_eq in E. subst v. contradiction. }
    rewrite Hdev. eexists. eexists. reflexivity.
Qed.

(** ** What the role and profile handlers leave alone *)

Lemma set_name_same (u : User) : set_name u (name u) = u.
Proof. now destruct u. Qed.

Lemma updateUserProfile_rows_name (R : Runtime) (req : ProfileRequest) (w : World) :
  rows (fst (updateUserProfile R req w)) = rows w \/
  exists user name',
    In user (rows w) /\
    rows (fst (updateUserProfile R req w)) = upsert (set_name user name') (rows w).
Proof.
  unfold updateUserProfile.
  destruct (pr_user req) as [au|]; [|now left].
  unfold findOneByUserId.
  destruct (lookup_userId (au_userId au) (rows w)) as [user|] eqn:Hfind; [|now left].
  destruct (check_birthday R (pr_birthday req)); [now left|].
  destruct (check_gender R (pr_gender req)); [now left|].
  right. destruct (lookup_userId_In _ _ _ Hfind) as [Hin _].
  exists user, (match pr_name req with Some name' => name' | None => name user end).
  split; [exact Hin|].
  replace (set_name user (match pr_name req with Some name' => name' | None => name user end))
    with (match pr_name req with Some name' => set_name user name' | None => user end)
    by (destruct (pr_name req); [reflexivity | now rewrite set_name_same]).
  unfold findOneSelected. now destruct (option_map _ _).
Qed.

(** X21: a role request changes nothing but roles and a profile request
    nothing but names.  Every row of the table after [updateUserRole] is a
    row of the table before it, up to its role; every row after
    [updateUserProfile] is a row before it, up to its name, so that a profile
    update cannot change a role, an email, a password, a verified flag or a
    provider link. *)
Theorem role_and_profile_updates_frame :
  (forall req w r',
     In r' (rows (fst (updateUserRole req w))) ->
     exists r, In r (rows w) /\ r' = set_role r (role r')) /\
  (forall R req w r',
     In r' (rows (fst (updateUserProfile R req w))) ->
     exists r, In r (rows w) /\ r' = set_name r (name r')).
Proof.
  split.
  - intros req w r' Hin.
    destruct (updateUserRole_rows req w) as [E | (user & x & Hfind & E)];
      rewrite E in Hin.
    + exists r'. split; [exact Hin | now rewrite set_role_same].
    + apply In_upsert_inv in Hin. destruct Hin as [-> | Hin].
      * exists user. split; [now apply (lookup_userId_In (params_id req))|reflexivity].
      * exists r'. split; [exact Hin | now rewrite set_role_same].
  - intros R req w r' Hin.
    destruct (updateUserProfile_rows_name R req w) as [E | (user & n & Huser & E)];
      rewrite E in Hin.
    + exists r'. split; [exact Hin | now rewrite set_name_same].
    + apply In_upsert_inv in Hin. destruct Hin as [-> | Hin].
      * exists user. split; [exact Huser | reflexivity].
      * exists r'. split; [exact Hin | now rewrite set_name_same].
Qed.

Lemma role_and_profile_updates_frame_witness :
  exists r,
    In r (rows world0) /\
    set_name carol "Carol K" = set_name r (name (set_name carol "Carol K")).
Proof.
  apply (proj2 role_and_profile_updates_frame sample_runtime
           (profile_request "u-3" (Some "Carol K") (BirthdayString "1990-01-31")
                            (GenderString "女"))
           world0 (set_name carol "Carol K")).
  vm_compute. tauto.
Defined.

(** X22: a profile update is read back.  When the caller's row exists and
    the birthday and gender checks pass, [updateUserProfile] answers 200
    with the selection of the row carrying the requested name, the table
    holds that row under the caller's id, and [getUserProfile] called next
    answers with the same selection. *)
Theorem profile_update_read_back (R : Runtime) (req : ProfileRequest) (w : World)
    (authenticatedUser : AuthenticatedUser) (user : User) :
  pr_user req = Some authenticatedUser ->
  lookup_userId (au_userId authenticatedUser) (rows w) = Some user ->
  check_birthday R (pr_birthday req) = None ->
  check_gender R (pr_gender req) = None ->
  let user' := match pr_name req with
               | Some name' => set_name user name'
               | None => user
               end in
  let w1 := fst (updateUserProfile R req w) in
  snd (updateUserProfile R req w)
  = ProfileJson 200 "用戶資料更新成功" (select_profile user') /\
  lookup_userId (au_userId authenticatedUser) (rows w1) = Some user' /\
  snd (getUserProfile (Some authenticatedUser) w1)
  = ProfileJson 200 "獲取用戶資料成功" (select_profile user').
Proof.
  intros Hu Hfind Hb Hg user' w1.
  destruct (lookup_userId_In _ _ _ Hfind) as [_ Hid].
  assert (Hid' : userId user' = au_userId authenticatedUser).
  { subst user'. now destruct (pr_name req). }
  assert (E : updateUserProfile R req w
              = (log_op (FindOneByUserId (au_userId authenticatedUser))
                   (save user' (log_op (FindOneByUserId (au_userId authenticatedUser)) w)),
                 ProfileJson 200 "用戶資料更新成功" (select_profile user'))).
  { unfold updateUserProfile. rewrite Hu. unfold findOneByUserId. rewrite Hfind, Hb, Hg.
    fold user'. unfold findOneSelected, save, log_op. cbn [rows trace console].
    rewrite <- Hid'. now rewrite lookup_userId_upsert. }
  assert (Hstored : lookup_userId (au_userId authenticatedUser) (rows w1) = Some user').
  { subst w1. rewrite E. cbn [fst save log_op rows]. rewrite <- Hid'.
    apply lookup_userId_upsert. }
  split; [now rewrite E | split; [exact Hstored|]].
  unfold getUserProfile, findOneSelected. now rewrite Hstored.
Qed.

Lemma profile_update_read_back_witness :
  snd (updateUserProfile sample_runtime
         (profile_request "u-3" (Some "Carol K") (BirthdayString "1990-01-31")
                          (GenderString "女"))
         world0)
  = ProfileJson 200 "用戶資料更新成功" (select_profile (set_name carol "Carol K")) /\
  snd (getUserProfile (Some (mkAuthenticatedUser "u-3" "user" "x@x.com"))
         (fst (updateUserProfile sample_runtime
                 (profile_request "u-3" (Some "Carol K") (BirthdayString "1990-01-31")
                                  (GenderString "女"))
                 world0)))
  = ProfileJson 200 "獲取用戶資料成功" (select_profile (set_name carol "Carol K")).
Proof.
  destruct (profile_update_read_back sample_runtime
              (profile_request "u-3" (Some "Carol K") (BirthdayString "1990-01-31")
                               (GenderString "女"))
              world0 (mkAuthenticatedUser "u-3" "user" "x@x.com") carol)
    as (H1 & _ & H3); try reflexivity.
  split; [exact H1 | exact H3].
Defined.
